(** * Solana Security Patterns

    A shallow embedding of the pattern dataset ([patterns.ts]), its lookup
    ([getPatternById]), the pages that read it ([HomePage.tsx],
    [PatternPage.tsx]) and the code display widget ([CodeBlock.tsx]).

    JavaScript strings are modelled as Rocq strings holding the UTF-8 bytes
    of the text.  Every string operation the program uses ([===],
    [split('\n')], [trim], [startsWith], [replace(/\*\*/g, '')]) commutes
    with that encoding, and [length] is only ever taken of arrays. *)

From Stdlib Require Import String Ascii List ZArith NArith Bool Lia.
Import ListNotations.
Open Scope string_scope.

(** ** JavaScript strings *)

Module JsString.

(** The double quote character, for literals that contain it. *)
Definition dq : string := String "034"%char EmptyString.

(** [a === b] on two strings. *)
Definition strict_eq (a b : string) : bool := String.eqb a b.

(** Truthiness of a string: every string but the empty one. *)
Definition truthy (s : string) : bool :=
  match s with
  | EmptyString => false
  | String _ _ => true
  end.

(** [id || ''] for [id : string | undefined]. *)
Definition or_empty (o : option string) : string :=
  match o with
  | Some s => if truthy s then s else EmptyString
  | None => EmptyString
  end.

(** [s === o] for [o : string | undefined]. *)
Definition strict_eq_undef (s : string) (o : option string) : bool :=
  match o with
  | Some t => strict_eq s t
  | None => false
  end.

(** [s.split('\n')]: the pieces between line feeds; never an empty array. *)
Fixpoint split_lines (s : string) : list string :=
  match s with
  | EmptyString => [EmptyString]
  | String c rest =>
      if Ascii.eqb c "010"%char then EmptyString :: split_lines rest
      else match split_lines rest with
           | piece :: pieces => String c piece :: pieces
           | [] => [String c EmptyString]
           end
  end.

(** [s.startsWith(p)]. *)
Definition startsWith (s p : string) : bool := String.prefix p s.

(** [s.replace(/\*\*/g, '')]: every occurrence of two stars, found from the
    left without overlap, is removed. *)
Fixpoint strip_stars (s : string) : string :=
  match s with
  | String c rest =>
      match rest with
      | String c' rest' =>
          if Ascii.eqb c "*" && Ascii.eqb c' "*" then strip_stars rest'
          else String c (strip_stars rest)
      | EmptyString => String c EmptyString
      end
  | EmptyString => EmptyString
  end.

(** White space and line terminators of ECMAScript, as [trim] strips them.
    One byte: TAB, LF, VT, FF, CR, SP. *)
Definition ws1 (a : ascii) : bool :=
  match N_of_ascii a with
  | 9 | 10 | 11 | 12 | 13 | 32 => true
  | _ => false
  end%N.

(** Two bytes: U+00A0. *)
Definition ws2 (a b : ascii) : bool :=
  match N_of_ascii a, N_of_ascii b with
  | 194, 160 => true
  | _, _ => false
  end%N.

(** Three bytes: U+1680, U+2000 to U+200A, U+2028, U+2029, U+202F, U+205F,
    U+3000, U+FEFF. *)
Definition ws3 (a b c : ascii) : bool :=
  match N_of_ascii a, N_of_ascii b, N_of_ascii c with
  | 225, 154, 128 => true
  | 226, 128, x => ((128 <=? x) && (x <=? 138)) || (x =? 168) || (x =? 169) || (x =? 175)
  | 226, 129, 159 => true
  | 227, 128, 128 => true
  | 239, 187, 191 => true
  | _, _, _ => false
  end%N.

(** [s.trimStart()], on the list of bytes. *)
Fixpoint drop_ws (l : list ascii) : list ascii :=
  match l with
  | a :: l1 =>
      if ws1 a then drop_ws l1
      else match l1 with
           | b :: l2 =>
               if ws2 a b then drop_ws l2
               else match l2 with
                    | c :: l3 => if ws3 a b c then drop_ws l3 else l
                    | [] => l
                    end
           | [] => l
           end
  | [] => []
  end.

(** The same from the end: the bytes arrive last one first. *)
Fixpoint drop_ws_rev (l : list ascii) : list ascii :=
  match l with
  | c :: l1 =>
      if ws1 c then drop_ws_rev l1
      else match l1 with
           | b :: l2 =>
               if ws2 b c then drop_ws_rev l2
               else match l2 with
                    | a :: l3 => if ws3 a b c then drop_ws_rev l3 else l
                    | [] => l
                    end
           | [] => l
           end
  | [] => []
  end.

(** [s.trim()]. *)
Definition trim (s : string) : string :=
  string_of_list_ascii
    (rev (drop_ws_rev (rev (drop_ws (list_ascii_of_string s))))).

(** [s.endsWith(p)]. *)
Definition endsWith (s p : string) : bool :=
  let n := String.length s in
  let m := String.length p in
  (m <=? n)%nat && String.eqb (substring (n - m) m s) p.

(** The text from position [n] on. *)
Fixpoint skip (n : nat) (s : string) : string :=
  match n, s with
  | S n', String _ rest => skip n' rest
  | _, _ => s
  end.

(** [s.replace(p, '')] for a string [p]: the first occurrence of [p], if
    there is one, is removed. *)
Fixpoint remove_first (p s : string) : string :=
  if String.prefix p s then skip (String.length p) s
  else match s with
       | String c rest => String c (remove_first p rest)
       | EmptyString => EmptyString
       end.

(** [\d]: an ASCII digit. *)
Definition is_digit (c : ascii) : bool :=
  ((48 <=? N_of_ascii c) && (N_of_ascii c <=? 57))%N.

Fixpoint skip_digits (s : string) : string :=
  match s with
  | String c rest => if is_digit c then skip_digits rest else s
  | EmptyString => EmptyString
  end.

(** What follows a match of [/^\d+\./] at the start of [s], if it matches. *)
Definition after_number (s : string) : option string :=
  match s with
  | String c rest =>
      if is_digit c
      then match skip_digits rest with
           | String d tail => if Ascii.eqb d "." then Some tail else None
           | EmptyString => None
           end
      else None
  | EmptyString => None
  end.

(** [s.match(/^\d+\./)], as a truth value. *)
Definition matches_number (s : string) : bool :=
  match after_number s with
  | Some _ => true
  | None => false
  end.

(** [s.replace(/^\d+\.\s*/, '')]: [\s] is the white space [trim] strips. *)
Definition remove_number (s : string) : string :=
  match after_number s with
  | Some tail => string_of_list_ascii (drop_ws (list_ascii_of_string tail))
  | None => s
  end.

End JsString.

(** ** JavaScript arrays *)

Module JsArray.

Section Methods.
Context {A : Type}.

(** [arr.find(f)]: the first element that satisfies [f], or [undefined]. *)
Fixpoint find (f : A -> bool) (arr : list A) : option A :=
  match arr with
  | [] => None
  | x :: rest => if f x then Some x else find f rest
  end.

(** [arr.findIndex(f)], counting from [k]: the index of the first element
    that satisfies [f], or [-1]. *)
Fixpoint findIndex_from (f : A -> bool) (arr : list A) (k : Z) : Z :=
  match arr with
  | [] => (-1)%Z
  | x :: rest => if f x then k else findIndex_from f rest (k + 1)%Z
  end.

Definition findIndex (f : A -> bool) (arr : list A) : Z :=
  findIndex_from f arr 0%Z.

(** [arr[k]] for an integer [k]: [undefined] below [0] and from [length] on. *)
Definition get (arr : list A) (k : Z) : option A :=
  if (k <? 0)%Z then None else nth_error arr (Z.to_nat k).

(** [arr.slice(start, stop)] for integers: a negative index counts from the
    end, and both are clamped to the array. *)
Definition slice (arr : list A) (start stop : Z) : list A :=
  let len := Z.of_nat (length arr) in
  let k := if (start <? 0)%Z then Z.max (len + start) 0 else Z.min start len in
  let final := if (stop <? 0)%Z then Z.max (len + stop) 0 else Z.min stop len in
  firstn (Z.to_nat (final - k)) (skipn (Z.to_nat k) arr).

End Methods.

End JsArray.

(** ** patterns.ts *)

Import JsString.

Inductive Severity : Set := critical | high | medium.

Module Reference.
Record t : Set := { title : string; url : string }.
End Reference.

Record SecurityPattern : Set := {
  id : string;
  title : string;
  description : string;
  severity : Severity;
  category : string;
  explanation : string;
  vulnerableCode : string;
  secureCode : string;
  vulnerableExplanation : string;
  secureExplanation : string;
  attackScenario : string;
  prevention : list string;
  references : list Reference.t
}.

(** The authored records, in the order of the source array. *)

Definition missing_signer_check : SecurityPattern :=
  {| id := "missing-signer-check";
     title := "Missing Signer Verification";
     description := "Failing to verify that critical accounts have signed the transaction, allowing unauthorized actions.";
     severity := critical;
     category := "Account Validation";
     explanation := "
One of the most fundamental security checks in Solana programs is verifying that accounts have actually signed the transaction. Without this check, anyone can pass any public key as an " ++ dq ++ "authority" ++ dq ++ " account and perform unauthorized actions.

In Solana's account model, each account in a transaction has an `is_signer` flag that indicates whether the account's private key was used to sign the transaction. Programs MUST check this flag for any account that should have authority over an action.

This vulnerability is particularly dangerous because:
1. It allows complete bypass of access control
2. Attackers can drain funds, modify state, or take ownership
3. The exploit is trivial to execute once discovered
    ";
     vulnerableCode := "use anchor_lang::prelude::*;

declare_id!(" ++ dq ++ "Vuln111111111111111111111111111111111111111" ++ dq ++ ");

#[program]
pub mod vulnerable_signer {
    use super::*;

    // ❌ VULNERABLE: No signer verification!
    // Anyone can call this and pass ANY pubkey as authority
    pub fn withdraw(ctx: Context<Withdraw>, amount: u64) -> Result<()> {
        // This will succeed even if 'authority' didn't sign!
        let vault = &mut ctx.accounts.vault;
        
        // Attacker can pass victim's pubkey as authority
        // and drain their vault without their signature
        vault.balance = vault.balance.checked_sub(amount)
            .ok_or(ErrorCode::InsufficientFunds)?;
        
        // Transfer funds to attacker...
        msg!(" ++ dq ++ "Withdrew {} lamports" ++ dq ++ ", amount);
        Ok(())
    }
}

#[derive(Accounts)]
pub struct Withdraw<'info> {
    #[account(mut)]
    pub vault: Account<'info, Vault>,
    
    // ❌ VULNERABLE: No Signer constraint!
    // This account is NOT required to sign the transaction
    /// CHECK: This should be the vault authority but isn't verified
    pub authority: AccountInfo<'info>,
}

#[account]
pub struct Vault {
    pub authority: Pubkey,
    pub balance: u64,
}

#[error_code]
pub enum ErrorCode {
    #[msg(" ++ dq ++ "Insufficient funds in vault" ++ dq ++ ")]
    InsufficientFunds,
}";
     secureCode := "use anchor_lang::prelude::*;

declare_id!(" ++ dq ++ "Secure1111111111111111111111111111111111111" ++ dq ++ ");

#[program]
pub mod secure_signer {
    use super::*;

    // ✅ SECURE: Proper signer verification
    pub fn withdraw(ctx: Context<Withdraw>, amount: u64) -> Result<()> {
        let vault = &mut ctx.accounts.vault;
        
        // Additional check: verify authority matches vault's stored authority
        // This is defense-in-depth alongside the Signer constraint
        require_keys_eq!(
            ctx.accounts.authority.key(),
            vault.authority,
            ErrorCode::UnauthorizedAuthority
        );
        
        vault.balance = vault.balance.checked_sub(amount)
            .ok_or(ErrorCode::InsufficientFunds)?;
        
        msg!(" ++ dq ++ "Withdrew {} lamports" ++ dq ++ ", amount);
        Ok(())
    }
}

#[derive(Accounts)]
pub struct Withdraw<'info> {
    #[account(mut)]
    pub vault: Account<'info, Vault>,
    
    // ✅ SECURE: Signer constraint ensures this account signed the tx
    // The transaction will fail if authority didn't sign
    #[account(
        constraint = authority.key() == vault.authority @ ErrorCode::UnauthorizedAuthority
    )]
    pub authority: Signer<'info>,
}

#[account]
pub struct Vault {
    pub authority: Pubkey,
    pub balance: u64,
}

#[error_code]
pub enum ErrorCode {
    #[msg(" ++ dq ++ "Insufficient funds in vault" ++ dq ++ ")]
    InsufficientFunds,
    #[msg(" ++ dq ++ "Unauthorized authority for this vault" ++ dq ++ ")]
    UnauthorizedAuthority,
}";
     vulnerableExplanation := "
**What's Wrong:**
- The `authority` account uses `AccountInfo<'info>` with no constraints
- There's no `Signer` type or `is_signer` check
- Anyone can pass any public key as the authority
- The program blindly trusts the passed account

**Attack Vector:**
1. Attacker finds a vault with funds
2. Attacker creates a transaction passing the victim's pubkey as authority
3. Since no signature is required, the transaction succeeds
4. Attacker drains the vault
    ";
     secureExplanation := "
**Security Measures:**
1. **Signer<'info> type**: Anchor automatically verifies the account signed the transaction
2. **Constraint check**: Verifies the signer matches the vault's stored authority
3. **Custom error**: Provides clear feedback on authorization failures

**Why This Works:**
- Solana runtime enforces that Signer accounts must have signed
- The constraint provides defense-in-depth
- Even if an attacker knows the authority pubkey, they can't sign without the private key
    ";
     attackScenario := "
**Real-World Attack Scenario:**

1. A DeFi protocol has a vault system where users deposit funds
2. The withdraw function doesn't verify signers
3. Attacker scans the blockchain for vaults with significant balances
4. For each vault, attacker:
   - Reads the vault's authority pubkey from account data
   - Constructs a withdraw transaction with that pubkey
   - Signs only with their own keypair (not the authority)
   - Submits the transaction
5. All vaults are drained in minutes

**Historical Example:** This exact vulnerability has led to millions in losses across various Solana protocols.
    ";
     prevention := [
       "Always use Signer<'info> for accounts that must authorize actions";
       "Add constraint checks to verify the signer matches stored authority";
       "Use Anchor's has_one constraint for automatic authority matching";
       "Implement defense-in-depth with multiple validation layers";
       "Audit all instruction handlers for missing signer checks"
     ];
     references := [
       {| Reference.title := "Anchor Signer Documentation"; Reference.url := "https://www.anchor-lang.com/docs/account-types#signer" |};
       {| Reference.title := "Solana Account Model"; Reference.url := "https://solana.com/docs/core/accounts" |}
     ] |}.

Definition missing_owner_check : SecurityPattern :=
  {| id := "missing-owner-check";
     title := "Missing Account Owner Verification";
     description := "Not verifying that an account is owned by the expected program, allowing fake account injection.";
     severity := critical;
     category := "Account Validation";
     explanation := "
Every account on Solana has an " ++ dq ++ "owner" ++ dq ++ " field that indicates which program has write access to it. When your program reads data from an account, you MUST verify the account is owned by the expected program.

Without owner verification, an attacker can:
1. Create a fake account with malicious data
2. Set themselves as the owner
3. Pass this fake account to your program
4. Your program reads the fake data as if it were legitimate

This is especially dangerous when reading token accounts, PDAs, or any account your program didn't create in the same transaction.
    ";
     vulnerableCode := "use anchor_lang::prelude::*;
use anchor_spl::token::TokenAccount;

declare_id!(" ++ dq ++ "Vuln222222222222222222222222222222222222222" ++ dq ++ ");

#[program]
pub mod vulnerable_owner {
    use super::*;

    // ❌ VULNERABLE: No owner verification on price feed
    pub fn swap(ctx: Context<Swap>, amount_in: u64) -> Result<()> {
        // Reading price from unverified account!
        // Attacker can pass a fake account with manipulated price
        let price_data = ctx.accounts.price_feed.try_borrow_data()?;
        let price = u64::from_le_bytes(
            price_data[0..8].try_into().unwrap()
        );
        
        // Calculate output based on potentially fake price
        let amount_out = amount_in
            .checked_mul(price)
            .ok_or(ErrorCode::MathOverflow)?
            .checked_div(1_000_000)
            .ok_or(ErrorCode::MathOverflow)?;
        
        msg!(" ++ dq ++ "Swapping {} for {} at price {}" ++ dq ++ ", amount_in, amount_out, price);
        
        // Transfer would happen here...
        // Attacker gets way more tokens than they should!
        
        Ok(())
    }
}

#[derive(Accounts)]
pub struct Swap<'info> {
    #[account(mut)]
    pub user: Signer<'info>,
    
    #[account(mut)]
    pub user_token_in: Account<'info, TokenAccount>,
    
    #[account(mut)]
    pub user_token_out: Account<'info, TokenAccount>,
    
    // ❌ VULNERABLE: No owner check!
    // Anyone can create an account with fake price data
    /// CHECK: Should be verified but isn't
    pub price_feed: AccountInfo<'info>,
}

#[error_code]
pub enum ErrorCode {
    #[msg(" ++ dq ++ "Math overflow" ++ dq ++ ")]
    MathOverflow,
}";
     secureCode := "use anchor_lang::prelude::*;
use anchor_spl::token::TokenAccount;

declare_id!(" ++ dq ++ "Secure2222222222222222222222222222222222222" ++ dq ++ ");

// Define the expected oracle program ID
pub const ORACLE_PROGRAM_ID: Pubkey = pubkey!(" ++ dq ++ "Oracle11111111111111111111111111111111111" ++ dq ++ ");

#[program]
pub mod secure_owner {
    use super::*;

    // ✅ SECURE: Proper owner verification
    pub fn swap(ctx: Context<Swap>, amount_in: u64) -> Result<()> {
        // Now we can trust the price data because we verified the owner
        let price_data = ctx.accounts.price_feed.try_borrow_data()?;
        let price = u64::from_le_bytes(
            price_data[0..8].try_into().unwrap()
        );
        
        // Additional validation: check price is within reasonable bounds
        require!(
            price > 0 && price < 1_000_000_000_000,
            ErrorCode::InvalidPrice
        );
        
        let amount_out = amount_in
            .checked_mul(price)
            .ok_or(ErrorCode::MathOverflow)?
            .checked_div(1_000_000)
            .ok_or(ErrorCode::MathOverflow)?;
        
        msg!(" ++ dq ++ "Swapping {} for {} at verified price {}" ++ dq ++ ", amount_in, amount_out, price);
        
        Ok(())
    }
}

#[derive(Accounts)]
pub struct Swap<'info> {
    #[account(mut)]
    pub user: Signer<'info>,
    
    #[account(mut)]
    pub user_token_in: Account<'info, TokenAccount>,
    
    #[account(mut)]
    pub user_token_out: Account<'info, TokenAccount>,
    
    // ✅ SECURE: Owner constraint verifies the account is owned by oracle
    // Attacker cannot create fake accounts owned by the oracle program
    #[account(
        owner = ORACLE_PROGRAM_ID @ ErrorCode::InvalidPriceFeedOwner
    )]
    /// CHECK: Owner is verified to be the oracle program
    pub price_feed: AccountInfo<'info>,
    
    // Alternative: Use a typed account if you control the oracle
    // #[account(
    //     has_one = oracle_authority,
    //     owner = crate::ID
    // )]
    // pub price_feed: Account<'info, PriceFeed>,
}

#[account]
pub struct PriceFeed {
    pub oracle_authority: Pubkey,
    pub price: u64,
    pub last_update: i64,
    pub confidence: u64,
}

#[error_code]
pub enum ErrorCode {
    #[msg(" ++ dq ++ "Math overflow" ++ dq ++ ")]
    MathOverflow,
    #[msg(" ++ dq ++ "Invalid price feed owner" ++ dq ++ ")]
    InvalidPriceFeedOwner,
    #[msg(" ++ dq ++ "Price is invalid or out of bounds" ++ dq ++ ")]
    InvalidPrice,
}";
     vulnerableExplanation := "
**What's Wrong:**
- The `price_feed` account has no owner verification
- Uses raw `AccountInfo` without constraints
- Attacker can create their own account with fake price data
- Program reads and trusts this manipulated data

**Attack Vector:**
1. Attacker creates an account they own
2. Writes fake price data (e.g., 1000x the real price)
3. Passes this fake account as the price feed
4. Program calculates swap based on fake price
5. Attacker receives 1000x more tokens than they should
    ";
     secureExplanation := "
**Security Measures:**
1. **Owner constraint**: Verifies account is owned by the oracle program
2. **Price bounds check**: Additional validation for reasonable values
3. **Custom error**: Clear feedback on validation failures

**Why This Works:**
- Only the oracle program can create accounts it owns
- Attacker cannot forge the owner field
- Even if attacker finds a bug in the oracle, bounds checking provides defense
    ";
     attackScenario := "
**Real-World Attack Scenario:**

1. A DEX uses an oracle for price feeds
2. The swap function doesn't verify the price feed owner
3. Attacker:
   - Creates a new account with their keypair
   - Writes data: price = 1,000,000 (1000x real price)
   - Calls swap with 1 token in, fake price feed
   - Receives 1000 tokens out instead of 1
4. Attacker repeats until pool is drained

**Impact:** This vulnerability has caused millions in losses in DeFi protocols.
    ";
     prevention := [
       "Always verify account owners using owner constraint";
       "Use typed Account<'info, T> when possible for automatic owner checks";
       "Validate data bounds even after owner verification";
       "Use PDAs derived from your program for trusted accounts";
       "Document expected owners in account structs"
     ];
     references := [
       {| Reference.title := "Anchor Owner Constraint"; Reference.url := "https://www.anchor-lang.com/docs/account-constraints" |};
       {| Reference.title := "Solana Account Ownership"; Reference.url := "https://solana.com/docs/core/accounts#ownership" |}
     ] |}.

Definition integer_overflow : SecurityPattern :=
  {| id := "integer-overflow";
     title := "Integer Overflow/Underflow";
     description := "Arithmetic operations that can wrap around, leading to unexpected values and fund theft.";
     severity := critical;
     category := "Arithmetic Safety";
     explanation := "
Integer overflow occurs when an arithmetic operation produces a value larger than the maximum the type can hold. In Rust, this behavior depends on the build mode:

- **Debug mode**: Panics on overflow (safe but crashes)
- **Release mode**: Wraps around silently (DANGEROUS!)

Since Solana programs run in release mode, unchecked arithmetic can lead to:
- Balances wrapping from max to 0 or vice versa
- Negative amounts becoming huge positive numbers
- Reward calculations producing unexpected results

This is one of the most common vulnerabilities in smart contracts across all blockchains.
    ";
     vulnerableCode := "use anchor_lang::prelude::*;

declare_id!(" ++ dq ++ "Vuln333333333333333333333333333333333333333" ++ dq ++ ");

#[program]
pub mod vulnerable_overflow {
    use super::*;

    // ❌ VULNERABLE: Unchecked arithmetic operations
    pub fn deposit(ctx: Context<Deposit>, amount: u64) -> Result<()> {
        let vault = &mut ctx.accounts.vault;
        
        // ❌ VULNERABLE: Can overflow!
        // If vault.balance = u64::MAX - 100 and amount = 200
        // Result wraps to 99 instead of failing!
        vault.balance = vault.balance + amount;
        
        msg!(" ++ dq ++ "Deposited {}. New balance: {}" ++ dq ++ ", amount, vault.balance);
        Ok(())
    }

    // ❌ VULNERABLE: Unchecked subtraction
    pub fn withdraw(ctx: Context<Withdraw>, amount: u64) -> Result<()> {
        let vault = &mut ctx.accounts.vault;
        
        // ❌ VULNERABLE: Can underflow!
        // If vault.balance = 100 and amount = 200
        // Result wraps to u64::MAX - 99 (massive number!)
        vault.balance = vault.balance - amount;
        
        msg!(" ++ dq ++ "Withdrew {}. New balance: {}" ++ dq ++ ", amount, vault.balance);
        Ok(())
    }

    // ❌ VULNERABLE: Unchecked multiplication in rewards
    pub fn calculate_rewards(ctx: Context<CalculateRewards>) -> Result<()> {
        let staking = &mut ctx.accounts.staking;
        let clock = Clock::get()?;
        
        let time_staked = clock.unix_timestamp - staking.start_time;
        
        // ❌ VULNERABLE: Multiplication can overflow!
        // Large stake * high rate * long time = overflow
        let rewards = staking.amount * staking.rate * time_staked as u64;
        
        staking.pending_rewards = rewards;
        msg!(" ++ dq ++ "Calculated rewards: {}" ++ dq ++ ", rewards);
        Ok(())
    }
}

#[derive(Accounts)]
pub struct Deposit<'info> {
    #[account(mut)]
    pub vault: Account<'info, Vault>,
    pub depositor: Signer<'info>,
}

#[derive(Accounts)]
pub struct Withdraw<'info> {
    #[account(mut)]
    pub vault: Account<'info, Vault>,
    pub authority: Signer<'info>,
}

#[derive(Accounts)]
pub struct CalculateRewards<'info> {
    #[account(mut)]
    pub staking: Account<'info, StakingAccount>,
}

#[account]
pub struct Vault {
    pub authority: Pubkey,
    pub balance: u64,
}

#[account]
pub struct StakingAccount {
    pub owner: Pubkey,
    pub amount: u64,
    pub rate: u64,
    pub start_time: i64,
    pub pending_rewards: u64,
}";
     secureCode := "use anchor_lang::prelude::*;

declare_id!(" ++ dq ++ "Secure3333333333333333333333333333333333333" ++ dq ++ ");

#[program]
pub mod secure_overflow {
    use super::*;

    // ✅ SECURE: Using checked arithmetic
    pub fn deposit(ctx: Context<Deposit>, amount: u64) -> Result<()> {
        let vault = &mut ctx.accounts.vault;
        
        // ✅ SECURE: checked_add returns None on overflow
        vault.balance = vault.balance
            .checked_add(amount)
            .ok_or(ErrorCode::ArithmeticOverflow)?;
        
        msg!(" ++ dq ++ "Deposited {}. New balance: {}" ++ dq ++ ", amount, vault.balance);
        Ok(())
    }

    // ✅ SECURE: Using checked subtraction with balance validation
    pub fn withdraw(ctx: Context<Withdraw>, amount: u64) -> Result<()> {
        let vault = &mut ctx.accounts.vault;
        
        // ✅ SECURE: Explicit balance check first
        require!(
            vault.balance >= amount,
            ErrorCode::InsufficientBalance
        );
        
        // ✅ SECURE: checked_sub for defense in depth
        vault.balance = vault.balance
            .checked_sub(amount)
            .ok_or(ErrorCode::ArithmeticUnderflow)?;
        
        msg!(" ++ dq ++ "Withdrew {}. New balance: {}" ++ dq ++ ", amount, vault.balance);
        Ok(())
    }

    // ✅ SECURE: Safe reward calculation with overflow protection
    pub fn calculate_rewards(ctx: Context<CalculateRewards>) -> Result<()> {
        let staking = &mut ctx.accounts.staking;
        let clock = Clock::get()?;
        
        // ✅ SECURE: Validate time hasn't gone backwards
        require!(
            clock.unix_timestamp >= staking.start_time,
            ErrorCode::InvalidTimestamp
        );
        
        let time_staked = (clock.unix_timestamp - staking.start_time) as u64;
        
        // ✅ SECURE: Chain checked operations
        // Using u128 intermediate to prevent overflow, then check bounds
        let rewards_u128 = (staking.amount as u128)
            .checked_mul(staking.rate as u128)
            .ok_or(ErrorCode::ArithmeticOverflow)?
            .checked_mul(time_staked as u128)
            .ok_or(ErrorCode::ArithmeticOverflow)?
            .checked_div(1_000_000) // Scale factor
            .ok_or(ErrorCode::ArithmeticOverflow)?;
        
        // ✅ SECURE: Verify result fits in u64
        require!(
            rewards_u128 <= u64::MAX as u128,
            ErrorCode::RewardsTooLarge
        );
        
        staking.pending_rewards = rewards_u128 as u64;
        msg!(" ++ dq ++ "Calculated rewards: {}" ++ dq ++ ", staking.pending_rewards);
        Ok(())
    }
}

#[derive(Accounts)]
pub struct Deposit<'info> {
    #[account(mut)]
    pub vault: Account<'info, Vault>,
    pub depositor: Signer<'info>,
}

#[derive(Accounts)]
pub struct Withdraw<'info> {
    #[account(
        mut,
        has_one = authority @ ErrorCode::UnauthorizedWithdraw
    )]
    pub vault: Account<'info, Vault>,
    pub authority: Signer<'info>,
}

#[derive(Accounts)]
pub struct CalculateRewards<'info> {
    #[account(mut)]
    pub staking: Account<'info, StakingAccount>,
}

#[account]
pub struct Vault {
    pub authority: Pubkey,
    pub balance: u64,
}

#[account]
pub struct StakingAccount {
    pub owner: Pubkey,
    pub amount: u64,
    pub rate: u64,
    pub start_time: i64,
    pub pending_rewards: u64,
}

#[error_code]
pub enum ErrorCode {
    #[msg(" ++ dq ++ "Arithmetic overflow occurred" ++ dq ++ ")]
    ArithmeticOverflow,
    #[msg(" ++ dq ++ "Arithmetic underflow occurred" ++ dq ++ ")]
    ArithmeticUnderflow,
    #[msg(" ++ dq ++ "Insufficient balance for withdrawal" ++ dq ++ ")]
    InsufficientBalance,
    #[msg(" ++ dq ++ "Unauthorized withdrawal attempt" ++ dq ++ ")]
    UnauthorizedWithdraw,
    #[msg(" ++ dq ++ "Invalid timestamp detected" ++ dq ++ ")]
    InvalidTimestamp,
    #[msg(" ++ dq ++ "Calculated rewards exceed maximum" ++ dq ++ ")]
    RewardsTooLarge,
}";
     vulnerableExplanation := "
**What's Wrong:**
- Uses standard arithmetic operators (+, -, *" ++ ")
- In release mode, these wrap on overflow/underflow
- No validation of operation results
- No bounds checking before operations

**Attack Vectors:**

1. **Underflow Attack:**
   - Vault has 100 tokens
   - Attacker withdraws 200 tokens
   - Balance becomes u64::MAX - 99 ≈ 18 quintillion!
   
2. **Overflow Attack:**
   - Stake large amount with high rate
   - Wait for time_staked to be large
   - Multiplication overflows to small number
   - Or wraps to give attacker huge rewards
    ";
     secureExplanation := "
**Security Measures:**

1. **checked_add/checked_sub/checked_mul**: Return None on overflow
2. **Explicit bounds checking**: Validate before operations
3. **u128 intermediate**: Use larger type for calculations
4. **Result validation**: Ensure final value fits in target type

**Best Practices:**
- Always use checked arithmetic in financial code
- Validate inputs before operations
- Use larger intermediate types for complex calculations
- Add explicit bounds checks as defense in depth
    ";
     attackScenario := "
**Real-World Attack Scenario:**

1. A staking protocol calculates rewards: amount * rate * time
2. Attacker stakes maximum u64 amount
3. Waits for time to accumulate
4. Calls calculate_rewards:
   - u64::MAX * rate * time overflows
   - Result wraps to a small or zero value
   - OR wraps to give attacker massive rewards
5. Attacker claims inflated rewards or griefs other users

**Historical Impact:** Integer overflow bugs have caused losses exceeding $100M across DeFi.
    ";
     prevention := [
       "Always use checked_add, checked_sub, checked_mul, checked_div";
       "Use saturating_* methods when capping at max/min is acceptable";
       "Validate inputs before performing arithmetic";
       "Use larger intermediate types (u128) for complex calculations";
       "Add explicit bounds checks even with checked arithmetic";
       "Consider using libraries like uint for arbitrary precision"
     ];
     references := [
       {| Reference.title := "Rust Checked Arithmetic"; Reference.url := "https://doc.rust-lang.org/std/primitive.u64.html#method.checked_add" |};
       {| Reference.title := "Solana Security Best Practices"; Reference.url := "https://solana.com/docs/programs/security" |}
     ] |}.

Definition pda_seed_collision : SecurityPattern :=
  {| id := "pda-seed-collision";
     title := "PDA Seed Collision";
     description := "Using predictable or insufficient seeds for PDAs, allowing attackers to access or overwrite accounts.";
     severity := high;
     category := "PDA Security";
     explanation := "
Program Derived Addresses (PDAs) are deterministically generated from seeds and a program ID. If the seeds are predictable or don't include sufficient unique identifiers, attackers can:

1. **Predict PDAs**: Calculate addresses before they're created
2. **Collide PDAs**: Create accounts that map to the same address
3. **Access Control Bypass**: Access accounts meant for other users

Common mistakes include:
- Using only user-controlled data as seeds
- Not including unique identifiers (user pubkey, nonce)
- Using sequential or predictable values
- Not validating PDA derivation in instructions
    ";
     vulnerableCode := "use anchor_lang::prelude::*;

declare_id!(" ++ dq ++ "Vuln444444444444444444444444444444444444444" ++ dq ++ ");

#[program]
pub mod vulnerable_pda {
    use super::*;

    // ❌ VULNERABLE: Predictable seeds without user binding
    pub fn create_vault(
        ctx: Context<CreateVault>,
        vault_name: String,
    ) -> Result<()> {
        let vault = &mut ctx.accounts.vault;
        vault.authority = ctx.accounts.authority.key();
        vault.balance = 0;
        vault.name = vault_name;
        
        msg!(" ++ dq ++ "Created vault: {}" ++ dq ++ ", vault.name);
        Ok(())
    }

    // ❌ VULNERABLE: No PDA verification in withdraw
    pub fn withdraw(ctx: Context<Withdraw>, amount: u64) -> Result<()> {
        let vault = &mut ctx.accounts.vault;
        
        // Only checks authority matches, but PDA could be wrong!
        require_keys_eq!(
            vault.authority,
            ctx.accounts.authority.key(),
            ErrorCode::Unauthorized
        );
        
        vault.balance = vault.balance.checked_sub(amount)
            .ok_or(ErrorCode::InsufficientFunds)?;
        
        Ok(())
    }
}

#[derive(Accounts)]
#[instruction(vault_name: String)]
pub struct CreateVault<'info> {
    // ❌ VULNERABLE: Seeds only use vault_name
    // Any user can create a vault with the same name
    // First user's vault gets overwritten!
    #[account(
        init,
        payer = authority,
        space = 8 + Vault::INIT_SPACE,
        seeds = [b" ++ dq ++ "vault" ++ dq ++ ", vault_name.as_bytes()],
        bump
    )]
    pub vault: Account<'info, Vault>,
    
    #[account(mut)]
    pub authority: Signer<'info>,
    
    pub system_program: Program<'info, System>,
}

#[derive(Accounts)]
pub struct Withdraw<'info> {
    // ❌ VULNERABLE: No seeds constraint to verify PDA
    #[account(mut)]
    pub vault: Account<'info, Vault>,
    
    pub authority: Signer<'info>,
}

#[account]
#[derive(InitSpace)]
pub struct Vault {
    pub authority: Pubkey,
    pub balance: u64,
    #[max_len(32)]
    pub name: String,
}

#[error_code]
pub enum ErrorCode {
    #[msg(" ++ dq ++ "Unauthorized access" ++ dq ++ ")]
    Unauthorized,
    #[msg(" ++ dq ++ "Insufficient funds" ++ dq ++ ")]
    InsufficientFunds,
}";
     secureCode := "use anchor_lang::prelude::*;

declare_id!(" ++ dq ++ "Secure4444444444444444444444444444444444444" ++ dq ++ ");

#[program]
pub mod secure_pda {
    use super::*;

    // ✅ SECURE: User-bound PDA with proper seeds
    pub fn create_vault(
        ctx: Context<CreateVault>,
        vault_name: String,
    ) -> Result<()> {
        let vault = &mut ctx.accounts.vault;
        vault.authority = ctx.accounts.authority.key();
        vault.balance = 0;
        vault.name = vault_name;
        vault.bump = ctx.bumps.vault;
        
        msg!(" ++ dq ++ "Created vault '{}' for user {}" ++ dq ++ ", 
            vault.name, 
            vault.authority
        );
        Ok(())
    }

    // ✅ SECURE: PDA verification in withdraw
    pub fn withdraw(ctx: Context<Withdraw>, amount: u64) -> Result<()> {
        let vault = &mut ctx.accounts.vault;
        
        vault.balance = vault.balance.checked_sub(amount)
            .ok_or(ErrorCode::InsufficientFunds)?;
        
        msg!(" ++ dq ++ "Withdrew {} from vault '{}'" ++ dq ++ ", amount, vault.name);
        Ok(())
    }
    
    // ✅ SECURE: Using PDA for signing (e.g., token transfers)
    pub fn transfer_from_vault(
        ctx: Context<TransferFromVault>,
        amount: u64,
    ) -> Result<()> {
        let vault = &ctx.accounts.vault;
        let authority_key = ctx.accounts.authority.key();
        
        // ✅ SECURE: Reconstruct seeds for PDA signing
        let seeds = &[
            b" ++ dq ++ "vault" ++ dq ++ ".as_ref(),
            authority_key.as_ref(),
            vault.name.as_bytes(),
            &[vault.bump],
        ];
        let signer_seeds = &[&seeds[..]];
        
        // Use signer_seeds for CPI calls...
        msg!(" ++ dq ++ "Transfer {} from vault PDA" ++ dq ++ ", amount);
        
        Ok(())
    }
}

#[derive(Accounts)]
#[instruction(vault_name: String)]
pub struct CreateVault<'info> {
    // ✅ SECURE: Seeds include authority pubkey
    // Each user gets their own unique vault PDA
    #[account(
        init,
        payer = authority,
        space = 8 + Vault::INIT_SPACE,
        seeds = [
            b" ++ dq ++ "vault" ++ dq ++ ",
            authority.key().as_ref(),
            vault_name.as_bytes()
        ],
        bump
    )]
    pub vault: Account<'info, Vault>,
    
    #[account(mut)]
    pub authority: Signer<'info>,
    
    pub system_program: Program<'info, System>,
}

#[derive(Accounts)]
#[instruction()]
pub struct Withdraw<'info> {
    // ✅ SECURE: Full PDA verification with seeds
    #[account(
        mut,
        seeds = [
            b" ++ dq ++ "vault" ++ dq ++ ",
            authority.key().as_ref(),
            vault.name.as_bytes()
        ],
        bump = vault.bump,
        has_one = authority @ ErrorCode::Unauthorized
    )]
    pub vault: Account<'info, Vault>,
    
    pub authority: Signer<'info>,
}

#[derive(Accounts)]
pub struct TransferFromVault<'info> {
    #[account(
        seeds = [
            b" ++ dq ++ "vault" ++ dq ++ ",
            authority.key().as_ref(),
            vault.name.as_bytes()
        ],
        bump = vault.bump,
        has_one = authority @ ErrorCode::Unauthorized
    )]
    pub vault: Account<'info, Vault>,
    
    pub authority: Signer<'info>,
}

#[account]
#[derive(InitSpace)]
pub struct Vault {
    pub authority: Pubkey,
    pub balance: u64,
    #[max_len(32)]
    pub name: String,
    pub bump: u8,  // ✅ Store bump for efficient re-derivation
}

#[error_code]
pub enum ErrorCode {
    #[msg(" ++ dq ++ "Unauthorized access to vault" ++ dq ++ ")]
    Unauthorized,
    #[msg(" ++ dq ++ "Insufficient funds in vault" ++ dq ++ ")]
    InsufficientFunds,
}";
     vulnerableExplanation := "
**What's Wrong:**

1. **Insufficient Seeds:**
   - Only uses `vault_name` in seeds
   - Two users creating " ++ dq ++ "savings" ++ dq ++ " vault collide
   - Second user overwrites first user's vault

2. **Missing PDA Verification:**
   - Withdraw doesn't verify PDA derivation
   - Attacker can pass any account with matching authority
   - Could access accounts not meant for them

**Attack Vectors:**
- Create vault with common name, wait for victim to deposit
- Pass manipulated account data to withdraw
    ";
     secureExplanation := "
**Security Measures:**

1. **User-Bound Seeds:**
   - Include `authority.key()` in seeds
   - Each user gets unique PDA even with same name
   - Impossible to collide with other users

2. **Full PDA Verification:**
   - Seeds constraint in withdraw verifies derivation
   - `has_one` ensures authority matches
   - Stored bump enables efficient re-derivation

3. **Bump Storage:**
   - Store bump in account for CPI signing
   - Avoids expensive re-computation
    ";
     attackScenario := "
**Real-World Attack Scenario:**

1. Protocol uses vault_name only for PDA seeds
2. Attacker creates vault named " ++ dq ++ "main" ++ dq ++ " (common name)
3. Victim creates their vault also named " ++ dq ++ "main" ++ dq ++ "
4. Victim's transaction fails OR overwrites attacker's vault
5. If overwrite: attacker's authority is replaced
6. If fail: victim can't create vault, DoS attack

**Alternative Attack:**
1. Attacker predicts common vault names
2. Pre-creates vaults for all common names
3. Sets themselves as authority
4. Waits for victims to deposit to " ++ dq ++ "their" ++ dq ++ " vaults
5. Drains all deposits
    ";
     prevention := [
       "Always include user pubkey in PDA seeds";
       "Use unique identifiers (timestamps, counters) when needed";
       "Verify PDA derivation in all instructions that access PDAs";
       "Store and validate bump seeds";
       "Use has_one constraint for authority checks";
       "Consider using canonical bump (first valid bump)"
     ];
     references := [
       {| Reference.title := "Anchor PDA Documentation"; Reference.url := "https://www.anchor-lang.com/docs/pdas" |};
       {| Reference.title := "Solana PDA Deep Dive"; Reference.url := "https://solana.com/docs/core/pda" |}
     ] |}.

Definition unsafe_cpi : SecurityPattern :=
  {| id := "unsafe-cpi";
     title := "Unsafe Cross-Program Invocation (CPI)";
     description := "Improper CPI handling leading to privilege escalation, reentrancy, or unauthorized program calls.";
     severity := critical;
     category := "CPI Security";
     explanation := "
Cross-Program Invocation (CPI) allows programs to call other programs. This powerful feature introduces several security risks:

1. **Privilege Escalation**: Passing signer seeds incorrectly
2. **Reentrancy**: Called program calls back into your program
3. **Fake Program**: Calling a malicious program instead of intended one
4. **Account Confusion**: Passing wrong accounts to CPI

CPI security requires:
- Verifying the program being called
- Careful handling of signer privileges
- State management before/after CPI
- Understanding the called program's behavior
    ";
     vulnerableCode := "use anchor_lang::prelude::*;
use anchor_spl::token::{self, Token, TokenAccount, Transfer};

declare_id!(" ++ dq ++ "Vuln555555555555555555555555555555555555555" ++ dq ++ ");

#[program]
pub mod vulnerable_cpi {
    use super::*;

    // ❌ VULNERABLE: No program ID verification for CPI
    pub fn swap_tokens(
        ctx: Context<SwapTokens>,
        amount: u64,
    ) -> Result<()> {
        // ❌ VULNERABLE: Calling unverified program!
        // Attacker can pass a malicious program that steals funds
        let cpi_accounts = Transfer {
            from: ctx.accounts.user_token_a.to_account_info(),
            to: ctx.accounts.pool_token_a.to_account_info(),
            authority: ctx.accounts.user.to_account_info(),
        };
        
        // ❌ VULNERABLE: token_program is not verified!
        let cpi_ctx = CpiContext::new(
            ctx.accounts.token_program.to_account_info(),
            cpi_accounts,
        );
        
        token::transfer(cpi_ctx, amount)?;
        
        // State update AFTER CPI - vulnerable to reentrancy
        let pool = &mut ctx.accounts.pool;
        pool.total_deposits += amount;
        
        Ok(())
    }

    // ❌ VULNERABLE: Reentrancy through callback
    pub fn deposit_with_callback(
        ctx: Context<DepositWithCallback>,
        amount: u64,
    ) -> Result<()> {
        let vault = &mut ctx.accounts.vault;
        
        // ❌ VULNERABLE: State updated AFTER external call
        // Malicious callback can re-enter and drain funds
        
        // External call first (BAD!)
        let cpi_accounts = Transfer {
            from: ctx.accounts.user_tokens.to_account_info(),
            to: ctx.accounts.vault_tokens.to_account_info(),
            authority: ctx.accounts.user.to_account_info(),
        };
        let cpi_ctx = CpiContext::new(
            ctx.accounts.token_program.to_account_info(),
            cpi_accounts,
        );
        token::transfer(cpi_ctx, amount)?;
        
        // ❌ State update after CPI - REENTRANCY RISK!
        vault.balance += amount;
        vault.last_deposit = Clock::get()?.unix_timestamp;
        
        Ok(())
    }
}

#[derive(Accounts)]
pub struct SwapTokens<'info> {
    #[account(mut)]
    pub user: Signer<'info>,
    
    #[account(mut)]
    pub user_token_a: Account<'info, TokenAccount>,
    
    #[account(mut)]
    pub pool_token_a: Account<'info, TokenAccount>,
    
    #[account(mut)]
    pub pool: Account<'info, Pool>,
    
    // ❌ VULNERABLE: No verification this is the real token program!
    /// CHECK: Should verify this is Token program
    pub token_program: AccountInfo<'info>,
}

#[derive(Accounts)]
pub struct DepositWithCallback<'info> {
    #[account(mut)]
    pub user: Signer<'info>,
    
    #[account(mut)]
    pub user_tokens: Account<'info, TokenAccount>,
    
    #[account(mut)]
    pub vault_tokens: Account<'info, TokenAccount>,
    
    #[account(mut)]
    pub vault: Account<'info, Vault>,
    
    pub token_program: Program<'info, Token>,
}

#[account]
pub struct Pool {
    pub authority: Pubkey,
    pub total_deposits: u64,
}

#[account]
pub struct Vault {
    pub authority: Pubkey,
    pub balance: u64,
    pub last_deposit: i64,
}";
     secureCode := "use anchor_lang::prelude::*;
use anchor_spl::token::{self, Token, TokenAccount, Transfer};

declare_id!(" ++ dq ++ "Secure5555555555555555555555555555555555555" ++ dq ++ ");

#[program]
pub mod secure_cpi {
    use super::*;

    // ✅ SECURE: Verified program ID for CPI
    pub fn swap_tokens(
        ctx: Context<SwapTokens>,
        amount: u64,
    ) -> Result<()> {
        // ✅ SECURE: Update state BEFORE CPI (checks-effects-interactions)
        let pool = &mut ctx.accounts.pool;
        
        // Validate amount
        require!(amount > 0, ErrorCode::InvalidAmount);
        require!(
            ctx.accounts.user_token_a.amount >= amount,
            ErrorCode::InsufficientBalance
        );
        
        // Update state first
        pool.total_deposits = pool.total_deposits
            .checked_add(amount)
            .ok_or(ErrorCode::Overflow)?;
        
        // ✅ SECURE: CPI with verified token program
        let cpi_accounts = Transfer {
            from: ctx.accounts.user_token_a.to_account_info(),
            to: ctx.accounts.pool_token_a.to_account_info(),
            authority: ctx.accounts.user.to_account_info(),
        };
        
        // Program<'info, Token> ensures this is the real token program
        let cpi_ctx = CpiContext::new(
            ctx.accounts.token_program.to_account_info(),
            cpi_accounts,
        );
        
        token::transfer(cpi_ctx, amount)?;
        
        emit!(SwapEvent {
            user: ctx.accounts.user.key(),
            amount,
            timestamp: Clock::get()?.unix_timestamp,
        });
        
        Ok(())
    }

    // ✅ SECURE: Reentrancy-safe deposit
    pub fn deposit_with_callback(
        ctx: Context<DepositWithCallback>,
        amount: u64,
    ) -> Result<()> {
        let vault = &mut ctx.accounts.vault;
        
        // ✅ SECURE: Validate inputs
        require!(amount > 0, ErrorCode::InvalidAmount);
        require!(
            ctx.accounts.user_tokens.amount >= amount,
            ErrorCode::InsufficientBalance
        );
        
        // ✅ SECURE: Update state BEFORE external call
        // This prevents reentrancy attacks
        vault.balance = vault.balance
            .checked_add(amount)
            .ok_or(ErrorCode::Overflow)?;
        vault.last_deposit = Clock::get()?.unix_timestamp;
        
        // ✅ SECURE: Set reentrancy guard (optional extra protection)
        require!(!vault.locked, ErrorCode::ReentrancyDetected);
        vault.locked = true;
        
        // External call AFTER state update
        let cpi_accounts = Transfer {
            from: ctx.accounts.user_tokens.to_account_info(),
            to: ctx.accounts.vault_tokens.to_account_info(),
            authority: ctx.accounts.user.to_account_info(),
        };
        let cpi_ctx = CpiContext::new(
            ctx.accounts.token_program.to_account_info(),
            cpi_accounts,
        );
        token::transfer(cpi_ctx, amount)?;
        
        // ✅ Release reentrancy guard
        let vault = &mut ctx.accounts.vault;
        vault.locked = false;
        
        Ok(())
    }
    
    // ✅ SECURE: CPI with PDA signer
    pub fn transfer_from_pool(
        ctx: Context<TransferFromPool>,
        amount: u64,
    ) -> Result<()> {
        let pool = &ctx.accounts.pool;
        
        // ✅ SECURE: Construct signer seeds carefully
        let pool_seed = pool.seed.as_bytes();
        let bump = pool.bump;
        let seeds = &[
            b" ++ dq ++ "pool" ++ dq ++ ".as_ref(),
            pool_seed,
            &[bump],
        ];
        let signer_seeds = &[&seeds[..]];
        
        let cpi_accounts = Transfer {
            from: ctx.accounts.pool_tokens.to_account_info(),
            to: ctx.accounts.recipient_tokens.to_account_info(),
            authority: ctx.accounts.pool.to_account_info(),
        };
        
        // ✅ SECURE: CPI with signer seeds
        let cpi_ctx = CpiContext::new_with_signer(
            ctx.accounts.token_program.to_account_info(),
            cpi_accounts,
            signer_seeds,
        );
        
        token::transfer(cpi_ctx, amount)?;
        
        Ok(())
    }
}

#[derive(Accounts)]
pub struct SwapTokens<'info> {
    #[account(mut)]
    pub user: Signer<'info>,
    
    #[account(
        mut,
        constraint = user_token_a.owner == user.key() @ ErrorCode::InvalidOwner
    )]
    pub user_token_a: Account<'info, TokenAccount>,
    
    #[account(
        mut,
        constraint = pool_token_a.owner == pool.key() @ ErrorCode::InvalidOwner
    )]
    pub pool_token_a: Account<'info, TokenAccount>,
    
    #[account(mut)]
    pub pool: Account<'info, Pool>,
    
    // ✅ SECURE: Program<'info, Token> verifies program ID
    pub token_program: Program<'info, Token>,
}

#[derive(Accounts)]
pub struct DepositWithCallback<'info> {
    #[account(mut)]
    pub user: Signer<'info>,
    
    #[account(
        mut,
        constraint = user_tokens.owner == user.key() @ ErrorCode::InvalidOwner
    )]
    pub user_tokens: Account<'info, TokenAccount>,
    
    #[account(mut)]
    pub vault_tokens: Account<'info, TokenAccount>,
    
    #[account(
        mut,
        has_one = authority @ ErrorCode::Unauthorized
    )]
    pub vault: Account<'info, Vault>,
    
    pub authority: Signer<'info>,
    
    pub token_program: Program<'info, Token>,
}

#[derive(Accounts)]
pub struct TransferFromPool<'info> {
    #[account(
        seeds = [b" ++ dq ++ "pool" ++ dq ++ ", pool.seed.as_bytes()],
        bump = pool.bump,
        has_one = authority @ ErrorCode::Unauthorized
    )]
    pub pool: Account<'info, Pool>,
    
    #[account(mut)]
    pub pool_tokens: Account<'info, TokenAccount>,
    
    #[account(mut)]
    pub recipient_tokens: Account<'info, TokenAccount>,
    
    pub authority: Signer<'info>,
    
    pub token_program: Program<'info, Token>,
}

#[account]
pub struct Pool {
    pub authority: Pubkey,
    pub total_deposits: u64,
    pub seed: String,
    pub bump: u8,
}

#[account]
pub struct Vault {
    pub authority: Pubkey,
    pub balance: u64,
    pub last_deposit: i64,
    pub locked: bool,  // Reentrancy guard
}

#[event]
pub struct SwapEvent {
    pub user: Pubkey,
    pub amount: u64,
    pub timestamp: i64,
}

#[error_code]
pub enum ErrorCode {
    #[msg(" ++ dq ++ "Invalid amount" ++ dq ++ ")]
    InvalidAmount,
    #[msg(" ++ dq ++ "Insufficient balance" ++ dq ++ ")]
    InsufficientBalance,
    #[msg(" ++ dq ++ "Arithmetic overflow" ++ dq ++ ")]
    Overflow,
    #[msg(" ++ dq ++ "Invalid token account owner" ++ dq ++ ")]
    InvalidOwner,
    #[msg(" ++ dq ++ "Unauthorized" ++ dq ++ ")]
    Unauthorized,
    #[msg(" ++ dq ++ "Reentrancy detected" ++ dq ++ ")]
    ReentrancyDetected,
}";
     vulnerableExplanation := "
**What's Wrong:**

1. **Unverified Program:**
   - `token_program` is raw AccountInfo
   - Attacker can pass malicious program
   - Fake program can steal tokens

2. **Reentrancy Risk:**
   - State updated AFTER CPI
   - Malicious token can callback
   - Re-enter and exploit stale state

3. **Missing Validations:**
   - No ownership checks on token accounts
   - No amount validation
   - No overflow protection
    ";
     secureExplanation := "
**Security Measures:**

1. **Program Verification:**
   - `Program<'info, Token>` verifies program ID
   - Cannot pass fake token program

2. **Checks-Effects-Interactions:**
   - Update state BEFORE CPI
   - Reentrancy can't exploit stale state

3. **Reentrancy Guard:**
   - Lock flag prevents re-entry
   - Extra protection layer

4. **Comprehensive Validation:**
   - Token account ownership
   - Amount bounds
   - Overflow protection
    ";
     attackScenario := "
**Reentrancy Attack Scenario:**

1. Attacker deploys malicious token contract
2. Token's transfer function calls back to deposit
3. Attack flow:
   - Call deposit(100)
   - CPI to malicious token
   - Token calls deposit(100) again
   - State not yet updated, passes checks
   - Repeat until drained
4. Final state shows deposits but tokens stolen

**Fake Program Attack:**

1. Attacker deploys fake " ++ dq ++ "token program" ++ dq ++ "
2. Fake program's transfer does nothing
3. Attacker calls swap with fake program
4. Pool state updated (thinks it received tokens)
5. Attacker gets output tokens for free
    ";
     prevention := [
       "Always use Program<'info, T> for CPI targets";
       "Follow checks-effects-interactions pattern";
       "Update state BEFORE external calls";
       "Consider reentrancy guards for complex flows";
       "Validate all account relationships";
       "Use events for off-chain tracking";
       "Test with malicious program simulations"
     ];
     references := [
       {| Reference.title := "Anchor CPI Documentation"; Reference.url := "https://www.anchor-lang.com/docs/cross-program-invocations" |};
       {| Reference.title := "Solana CPI Deep Dive"; Reference.url := "https://solana.com/docs/core/cpi" |}
     ] |}.

Definition account_data_matching : SecurityPattern :=
  {| id := "account-data-matching";
     title := "Account Data Matching Vulnerabilities";
     description := "Failing to verify relationships between accounts, allowing attackers to substitute malicious accounts.";
     severity := high;
     category := "Account Validation";
     explanation := "
Solana programs often work with multiple related accounts (e.g., a user account and their token account, or a pool and its vaults). Failing to verify these relationships allows attackers to:

1. **Substitute Accounts**: Pass their own account instead of the expected one
2. **Steal Funds**: Redirect transfers to attacker-controlled accounts
3. **Bypass Access Control**: Use accounts from different contexts

Common patterns that need validation:
- Token account ownership
- PDA derivation relationships
- Authority/owner fields matching signers
- Mint relationships for token accounts
    ";
     vulnerableCode := "use anchor_lang::prelude::*;
use anchor_spl::token::{self, Token, TokenAccount, Mint, Transfer};

declare_id!(" ++ dq ++ "Vuln666666666666666666666666666666666666666" ++ dq ++ ");

#[program]
pub mod vulnerable_matching {
    use super::*;

    // ❌ VULNERABLE: No verification that token accounts belong to user
    pub fn transfer_tokens(
        ctx: Context<TransferTokens>,
        amount: u64,
    ) -> Result<()> {
        // ❌ VULNERABLE: from_account might not belong to user!
        // Attacker can pass victim's token account as from_account
        let cpi_accounts = Transfer {
            from: ctx.accounts.from_account.to_account_info(),
            to: ctx.accounts.to_account.to_account_info(),
            authority: ctx.accounts.authority.to_account_info(),
        };
        
        let cpi_ctx = CpiContext::new(
            ctx.accounts.token_program.to_account_info(),
            cpi_accounts,
        );
        
        token::transfer(cpi_ctx, amount)?;
        
        Ok(())
    }

    // ❌ VULNERABLE: No mint verification
    pub fn deposit_to_pool(
        ctx: Context<DepositToPool>,
        amount: u64,
    ) -> Result<()> {
        let pool = &mut ctx.accounts.pool;
        
        // ❌ VULNERABLE: user_tokens might be for wrong mint!
        // Attacker deposits worthless tokens, gets valuable pool shares
        pool.total_deposits += amount;
        
        // Transfer happens but mint isn't verified
        let cpi_accounts = Transfer {
            from: ctx.accounts.user_tokens.to_account_info(),
            to: ctx.accounts.pool_tokens.to_account_info(),
            authority: ctx.accounts.user.to_account_info(),
        };
        
        let cpi_ctx = CpiContext::new(
            ctx.accounts.token_program.to_account_info(),
            cpi_accounts,
        );
        
        token::transfer(cpi_ctx, amount)?;
        
        Ok(())
    }

    // ❌ VULNERABLE: No relationship verification between accounts
    pub fn claim_rewards(
        ctx: Context<ClaimRewards>,
    ) -> Result<()> {
        let staking = &ctx.accounts.staking_account;
        let rewards = staking.pending_rewards;
        
        // ❌ VULNERABLE: reward_vault might not be the pool's vault!
        // Attacker can pass any vault they control
        
        msg!(" ++ dq ++ "Claiming {} rewards" ++ dq ++ ", rewards);
        
        // Would transfer from wrong vault...
        
        Ok(())
    }
}

#[derive(Accounts)]
pub struct TransferTokens<'info> {
    // ❌ VULNERABLE: No owner constraint
    #[account(mut)]
    pub from_account: Account<'info, TokenAccount>,
    
    #[account(mut)]
    pub to_account: Account<'info, TokenAccount>,
    
    pub authority: Signer<'info>,
    
    pub token_program: Program<'info, Token>,
}

#[derive(Accounts)]
pub struct DepositToPool<'info> {
    #[account(mut)]
    pub user: Signer<'info>,
    
    // ❌ VULNERABLE: No mint constraint
    #[account(mut)]
    pub user_tokens: Account<'info, TokenAccount>,
    
    // ❌ VULNERABLE: No relationship to pool verified
    #[account(mut)]
    pub pool_tokens: Account<'info, TokenAccount>,
    
    #[account(mut)]
    pub pool: Account<'info, Pool>,
    
    pub token_program: Program<'info, Token>,
}

#[derive(Accounts)]
pub struct ClaimRewards<'info> {
    pub user: Signer<'info>,
    
    #[account(mut)]
    pub staking_account: Account<'info, StakingAccount>,
    
    // ❌ VULNERABLE: No verification this is the correct reward vault
    #[account(mut)]
    pub reward_vault: Account<'info, TokenAccount>,
    
    #[account(mut)]
    pub user_reward_account: Account<'info, TokenAccount>,
    
    pub token_program: Program<'info, Token>,
}

#[account]
pub struct Pool {
    pub authority: Pubkey,
    pub total_deposits: u64,
    pub token_mint: Pubkey,
}

#[account]
pub struct StakingAccount {
    pub owner: Pubkey,
    pub pool: Pubkey,
    pub amount: u64,
    pub pending_rewards: u64,
}";
     secureCode := "use anchor_lang::prelude::*;
use anchor_spl::token::{self, Token, TokenAccount, Mint, Transfer};

declare_id!(" ++ dq ++ "Secure6666666666666666666666666666666666666" ++ dq ++ ");

#[program]
pub mod secure_matching {
    use super::*;

    // ✅ SECURE: Full account relationship verification
    pub fn transfer_tokens(
        ctx: Context<TransferTokens>,
        amount: u64,
    ) -> Result<()> {
        // All validations handled by constraints
        // from_account.owner == authority is verified
        
        let cpi_accounts = Transfer {
            from: ctx.accounts.from_account.to_account_info(),
            to: ctx.accounts.to_account.to_account_info(),
            authority: ctx.accounts.authority.to_account_info(),
        };
        
        let cpi_ctx = CpiContext::new(
            ctx.accounts.token_program.to_account_info(),
            cpi_accounts,
        );
        
        token::transfer(cpi_ctx, amount)?;
        
        emit!(TransferEvent {
            from: ctx.accounts.from_account.key(),
            to: ctx.accounts.to_account.key(),
            amount,
            authority: ctx.accounts.authority.key(),
        });
        
        Ok(())
    }

    // ✅ SECURE: Mint and relationship verification
    pub fn deposit_to_pool(
        ctx: Context<DepositToPool>,
        amount: u64,
    ) -> Result<()> {
        let pool = &mut ctx.accounts.pool;
        
        // Validate amount
        require!(amount > 0, ErrorCode::InvalidAmount);
        
        // Update state with overflow protection
        pool.total_deposits = pool.total_deposits
            .checked_add(amount)
            .ok_or(ErrorCode::Overflow)?;
        
        // All account relationships verified by constraints
        let cpi_accounts = Transfer {
            from: ctx.accounts.user_tokens.to_account_info(),
            to: ctx.accounts.pool_tokens.to_account_info(),
            authority: ctx.accounts.user.to_account_info(),
        };
        
        let cpi_ctx = CpiContext::new(
            ctx.accounts.token_program.to_account_info(),
            cpi_accounts,
        );
        
        token::transfer(cpi_ctx, amount)?;
        
        Ok(())
    }

    // ✅ SECURE: Full relationship chain verification
    pub fn claim_rewards(
        ctx: Context<ClaimRewards>,
    ) -> Result<()> {
        let staking = &mut ctx.accounts.staking_account;
        let pool = &ctx.accounts.pool;
        
        let rewards = staking.pending_rewards;
        require!(rewards > 0, ErrorCode::NoRewardsToClaim);
        
        // Clear pending rewards BEFORE transfer (CEI pattern)
        staking.pending_rewards = 0;
        
        // Construct PDA signer for pool
        let pool_seeds = &[
            b" ++ dq ++ "pool" ++ dq ++ ".as_ref(),
            pool.token_mint.as_ref(),
            &[pool.bump],
        ];
        let signer_seeds = &[&pool_seeds[..]];
        
        let cpi_accounts = Transfer {
            from: ctx.accounts.reward_vault.to_account_info(),
            to: ctx.accounts.user_reward_account.to_account_info(),
            authority: ctx.accounts.pool.to_account_info(),
        };
        
        let cpi_ctx = CpiContext::new_with_signer(
            ctx.accounts.token_program.to_account_info(),
            cpi_accounts,
            signer_seeds,
        );
        
        token::transfer(cpi_ctx, rewards)?;
        
        emit!(RewardClaimEvent {
            user: ctx.accounts.user.key(),
            pool: pool.key(),
            amount: rewards,
        });
        
        Ok(())
    }
}

#[derive(Accounts)]
pub struct TransferTokens<'info> {
    // ✅ SECURE: Verify from_account is owned by authority
    #[account(
        mut,
        constraint = from_account.owner == authority.key() @ ErrorCode::InvalidOwner,
        constraint = from_account.mint == to_account.mint @ ErrorCode::MintMismatch
    )]
    pub from_account: Account<'info, TokenAccount>,
    
    #[account(mut)]
    pub to_account: Account<'info, TokenAccount>,
    
    pub authority: Signer<'info>,
    
    pub token_program: Program<'info, Token>,
}

#[derive(Accounts)]
pub struct DepositToPool<'info> {
    #[account(mut)]
    pub user: Signer<'info>,
    
    // ✅ SECURE: Verify mint matches pool's expected mint
    #[account(
        mut,
        constraint = user_tokens.owner == user.key() @ ErrorCode::InvalidOwner,
        constraint = user_tokens.mint == pool.token_mint @ ErrorCode::MintMismatch
    )]
    pub user_tokens: Account<'info, TokenAccount>,
    
    // ✅ SECURE: Verify pool_tokens belongs to pool and has correct mint
    #[account(
        mut,
        constraint = pool_tokens.owner == pool.key() @ ErrorCode::InvalidOwner,
        constraint = pool_tokens.mint == pool.token_mint @ ErrorCode::MintMismatch
    )]
    pub pool_tokens: Account<'info, TokenAccount>,
    
    // ✅ SECURE: Pool PDA verification
    #[account(
        mut,
        seeds = [b" ++ dq ++ "pool" ++ dq ++ ", pool.token_mint.as_ref()],
        bump = pool.bump
    )]
    pub pool: Account<'info, Pool>,
    
    pub token_program: Program<'info, Token>,
}

#[derive(Accounts)]
pub struct ClaimRewards<'info> {
    pub user: Signer<'info>,
    
    // ✅ SECURE: Verify staking account belongs to user and pool
    #[account(
        mut,
        has_one = owner @ ErrorCode::InvalidOwner,
        constraint = staking_account.pool == pool.key() @ ErrorCode::PoolMismatch
    )]
    pub staking_account: Account<'info, StakingAccount>,
    
    // ✅ SECURE: Verify pool relationship
    #[account(
        seeds = [b" ++ dq ++ "pool" ++ dq ++ ", pool.token_mint.as_ref()],
        bump = pool.bump,
        has_one = reward_vault @ ErrorCode::InvalidRewardVault
    )]
    pub pool: Account<'info, Pool>,
    
    // ✅ SECURE: Verified through has_one on pool
    #[account(mut)]
    pub reward_vault: Account<'info, TokenAccount>,
    
    // ✅ SECURE: Verify user owns the reward account
    #[account(
        mut,
        constraint = user_reward_account.owner == user.key() @ ErrorCode::InvalidOwner,
        constraint = user_reward_account.mint == pool.reward_mint @ ErrorCode::MintMismatch
    )]
    pub user_reward_account: Account<'info, TokenAccount>,
    
    /// CHECK: Verified as staking_account.owner
    #[account(constraint = owner.key() == user.key() @ ErrorCode::InvalidOwner)]
    pub owner: AccountInfo<'info>,
    
    pub token_program: Program<'info, Token>,
}

#[account]
pub struct Pool {
    pub authority: Pubkey,
    pub total_deposits: u64,
    pub token_mint: Pubkey,
    pub reward_mint: Pubkey,
    pub reward_vault: Pubkey,
    pub bump: u8,
}

#[account]
pub struct StakingAccount {
    pub owner: Pubkey,
    pub pool: Pubkey,
    pub amount: u64,
    pub pending_rewards: u64,
}

#[event]
pub struct TransferEvent {
    pub from: Pubkey,
    pub to: Pubkey,
    pub amount: u64,
    pub authority: Pubkey,
}

#[event]
pub struct RewardClaimEvent {
    pub user: Pubkey,
    pub pool: Pubkey,
    pub amount: u64,
}

#[error_code]
pub enum ErrorCode {
    #[msg(" ++ dq ++ "Invalid account owner" ++ dq ++ ")]
    InvalidOwner,
    #[msg(" ++ dq ++ "Token mint mismatch" ++ dq ++ ")]
    MintMismatch,
    #[msg(" ++ dq ++ "Pool mismatch" ++ dq ++ ")]
    PoolMismatch,
    #[msg(" ++ dq ++ "Invalid reward vault" ++ dq ++ ")]
    InvalidRewardVault,
    #[msg(" ++ dq ++ "Invalid amount" ++ dq ++ ")]
    InvalidAmount,
    #[msg(" ++ dq ++ "Arithmetic overflow" ++ dq ++ ")]
    Overflow,
    #[msg(" ++ dq ++ "No rewards to claim" ++ dq ++ ")]
    NoRewardsToClaim,
}";
     vulnerableExplanation := "
**What's Wrong:**

1. **No Owner Verification:**
   - Token accounts not verified to belong to signer
   - Attacker can pass victim's accounts

2. **No Mint Verification:**
   - Token mints not checked
   - Attacker deposits worthless tokens

3. **No Relationship Verification:**
   - Pool and vault relationship not verified
   - Attacker can redirect rewards

**Attack Vectors:**
- Pass victim's token account as source
- Deposit fake tokens, get real pool shares
- Claim rewards from wrong vault
    ";
     secureExplanation := "
**Security Measures:**

1. **Owner Constraints:**
   - `token_account.owner == signer.key()`
   - Ensures accounts belong to transaction signer

2. **Mint Constraints:**
   - `user_tokens.mint == pool.token_mint`
   - Prevents depositing wrong tokens

3. **Relationship Chains:**
   - `has_one` verifies stored references
   - PDA seeds verify derivation
   - Full chain from user → staking → pool → vault

4. **Defense in Depth:**
   - Multiple validation layers
   - Events for audit trail
    ";
     attackScenario := "
**Account Substitution Attack:**

1. Pool accepts USDC deposits
2. Attacker creates worthless " ++ dq ++ "FAKE" ++ dq ++ " token
3. Attacker:
   - Creates FAKE token account
   - Calls deposit with FAKE tokens
   - No mint verification, deposit succeeds
   - Receives pool shares worth real USDC
4. Attacker redeems shares for real USDC
5. Pool is drained of real value

**Reward Theft Attack:**

1. Attacker finds pool with large reward vault
2. Creates fake staking account pointing to pool
3. Sets pending_rewards to maximum
4. Calls claim_rewards with:
   - Fake staking account
   - Real pool's reward vault
5. Drains entire reward vault
    ";
     prevention := [
       "Always verify token account ownership matches signer";
       "Verify mint relationships for all token operations";
       "Use has_one for stored account references";
       "Verify full relationship chains (user → account → pool)";
       "Use PDAs to enforce account derivation";
       "Add events for monitoring and auditing";
       "Test with account substitution scenarios"
     ];
     references := [
       {| Reference.title := "Anchor Constraints"; Reference.url := "https://www.anchor-lang.com/docs/account-constraints" |};
       {| Reference.title := "SPL Token Security"; Reference.url := "https://spl.solana.com/token" |}
     ] |}.

Definition securityPatterns : list SecurityPattern :=
  [ missing_signer_check;
    missing_owner_check;
    integer_overflow;
    pda_seed_collision;
    unsafe_cpi;
    account_data_matching ].

Definition getPatternById (id0 : string) : option SecurityPattern :=
  JsArray.find (fun pattern => strict_eq (id pattern) id0) securityPatterns.

(** ** PatternCard.tsx *)

Module PatternCard.

(** The [severityColors] table; [PatternPage] declares the same one. *)
Definition severityColors (s : Severity) : string :=
  match s with
  | critical => "bg-error/20 text-error border-error/30"
  | high => "bg-warning/20 text-warning border-warning/30"
  | medium => "bg-secondary/20 text-secondary border-secondary/30"
  end.

(** The route a card links to: [`/pattern/${id}`]. *)
Definition href (id0 : string) : string := "/pattern/" ++ id0.

Record PatternCardProps : Set := {
  id : string;
  title : string;
  description : string;
  severity : Severity;
  category : string;
  index : nat
}.

(** What a card shows: its link, the class of its severity badge, its
    texts, and [index], the number of tenths of a second its entrance is
    delayed by. *)
Record Card : Set := {
  to : string;
  badgeClass : string;
  tag : string;
  heading : string;
  body : string;
  delaySteps : nat
}.

Definition PatternCard (props : PatternCardProps) : Card :=
  {| to := href (id props);
     badgeClass := severityColors (severity props);
     tag := category props;
     heading := title props;
     body := description props;
     delaySteps := index props |}.

End PatternCard.

(** ** HomePage.tsx *)

Module HomePage.

Inductive Icon : Set := Shield | AlertTriangle | Code | BookOpen.

(** A stat's [value] is a number or a string. *)
Inductive StatValue : Set :=
| Num (n : nat)
| Str (s : string).

Record Stat : Set := { label : string; value : StatValue; icon : Icon }.

(** The [stats] array, as a function of the imported dataset. *)
Definition stats_of (patterns : list SecurityPattern) : list Stat :=
  [ {| label := "Security Patterns"; value := Num (length patterns); icon := Shield |};
    {| label := "Vulnerability Types"; value := Str "6+"; icon := AlertTriangle |};
    {| label := "Code Examples"; value := Str "12+"; icon := Code |};
    {| label := "Best Practices"; value := Str "30+"; icon := BookOpen |} ].

Definition stats : list Stat := stats_of securityPatterns.

End HomePage.

(** ** PatternPage.tsx *)

Module PatternPage.

(** What [line.trim() && <p ...>] leaves in the children array: the empty
    string, which React renders as nothing, or the paragraph. *)
Inductive Child : Set :=
| Blank
| P (key : nat) (className : string) (text : string).

(** One line of the attack scenario block. *)
Definition attackLine (i : nat) (line : string) : Child :=
  if truthy (trim line)
  then P i
         (if startsWith line "**" then "font-semibold text-text" else EmptyString)
         (strip_stars line)
  else Blank.

(** [arr.map((line, i) => ...)], counting from [i]. *)
Fixpoint map_indexed {A B : Type} (f : nat -> A -> B) (i : nat) (l : list A) : list B :=
  match l with
  | [] => []
  | x :: rest => f i x :: map_indexed f (S i) rest
  end.

Definition attackBlock (scenario : string) : list Child :=
  map_indexed attackLine 0 (split_lines scenario).

(** A previous or next link: its target and the title it shows. *)
Record NavLink : Set := { to : string; shown : string }.

Definition navLink (p : SecurityPattern) : NavLink :=
  {| to := "/pattern/" ++ id p; shown := title p |}.

(** The found state of the page, as far as it is computed: the record, its
    severity class, the attack scenario block and the two links. *)
Record Detail : Set := {
  pattern : SecurityPattern;
  severityClass : string;
  attack : list Child;
  prevLink : option NavLink;
  nextLink : option NavLink
}.

Inductive View : Set :=
| NotFound
| Found (d : Detail).

(** The component, given what [useParams] returns for [id]. *)
Definition PatternPage (id0 : option string) : View :=
  match getPatternById (or_empty id0) with
  | None => NotFound
  | Some pattern0 =>
      let currentIndex :=
        JsArray.findIndex (fun p => strict_eq_undef (id p) id0) securityPatterns in
      let nextPattern := JsArray.get securityPatterns (currentIndex + 1)%Z in
      let prevPattern := JsArray.get securityPatterns (currentIndex - 1)%Z in
      Found {| pattern := pattern0;
               severityClass := PatternCard.severityColors (severity pattern0);
               attack := attackBlock (attackScenario pattern0);
               prevLink := option_map navLink prevPattern;
               nextLink := option_map navLink nextPattern |}
  end.

(** A line of a prose block: [line.trim() && <p key={i} ...>{line}</p>]. *)
Definition proseLine (cls : string) (i : nat) (line : string) : Child :=
  if truthy (trim line) then P i cls line else Blank.

Definition proseBlock (cls text : string) : list Child :=
  map_indexed (proseLine cls) 0 (split_lines text).

(** The Overview block and the two blocks under the code samples. *)
Definition overview (p : SecurityPattern) : list Child :=
  proseBlock "text-text-secondary leading-relaxed mb-4 last:mb-0" (explanation p).

Definition whatsWrong (p : SecurityPattern) : list Child :=
  proseBlock EmptyString (vulnerableExplanation p).

Definition securityMeasures (p : SecurityPattern) : list Child :=
  proseBlock EmptyString (secureExplanation p).

End PatternPage.

(** ** CodeBlock.tsx *)

Module CodeBlock.

Inductive Variant : Set := vulnerable | secure | neutral.

Record CodeBlockProps : Set := {
  code : string;
  language : string;
  title : option string;
  variant : Variant;
  showLineNumbers : bool
}.

(** The props of [<CodeBlock code={...} />]: what is left out takes the
    default of the destructuring. *)
Definition withDefaults (code0 : string) : CodeBlockProps :=
  {| code := code0; language := "rust"; title := None;
     variant := neutral; showLineNumbers := true |}.

(** The label of a variant in [variantStyles]. *)
Definition variantLabel (v : Variant) : string :=
  match v with
  | vulnerable => "VULNERABLE"
  | secure => "SECURE"
  | neutral => EmptyString
  end.

(** The widget in its environment.  Time is in milliseconds.  A pending
    timer is its due time: every callback handed to [setTimeout] is
    [() => setCopied(false)]. *)
Record World : Set := {
  now : N;
  copied : bool;
  timers : list N;
  pending : list string;
  sink : list string;
  clipboard : option string;
  rejections : nat
}.

(** A freshly mounted widget: [useState(false)]. *)
Definition mounted : World :=
  {| now := 0; copied := false; timers := []; pending := [];
     sink := []; clipboard := None; rejections := 0 |}.

(** What happens to the widget: the copy button is clicked; the oldest
    clipboard write still pending resolves ([true]) or rejects ([false]);
    [ms] milliseconds pass with neither. *)
Inductive Event : Set :=
| Click
| Settle (ok : bool)
| Elapse (ms : N).

(** [handleCopy] up to its [await]: the text goes to the clipboard sink. *)
Definition handleCopy_call (props : CodeBlockProps) (w : World) : World :=
  {| now := now w; copied := copied w; timers := timers w;
     pending := pending w ++ [code props];
     sink := code props :: sink w;
     clipboard := clipboard w; rejections := rejections w |}.

(** [handleCopy] after its [await], when the write resolved:
    [setCopied(true); setTimeout(() => setCopied(false), 2000)]. *)
Definition handleCopy_resume (text : string) (rest : list string) (w : World) : World :=
  {| now := now w; copied := true; timers := timers w ++ [(now w + 2000)%N];
     pending := rest; sink := sink w;
     clipboard := Some text; rejections := rejections w |}.

(** When the write rejected, the [await] throws: the rest of [handleCopy] is
    skipped and its promise rejects, with nothing to handle it. *)
Definition handleCopy_reject (rest : list string) (w : World) : World :=
  {| now := now w; copied := copied w; timers := timers w;
     pending := rest; sink := sink w;
     clipboard := clipboard w; rejections := S (rejections w) |}.

(** Time passes; every timer that has come due runs its callback, at its
    due time exactly. *)
Definition elapse (ms : N) (w : World) : World :=
  let t := (now w + ms)%N in
  {| now := t;
     copied := if existsb (fun due => (due <=? t)%N) (timers w) then false else copied w;
     timers := filter (fun due => negb (due <=? t)%N) (timers w);
     pending := pending w; sink := sink w;
     clipboard := clipboard w; rejections := rejections w |}.

Definition step (props : CodeBlockProps) (w : World) (e : Event) : World :=
  match e with
  | Click => handleCopy_call props w
  | Settle ok =>
      match pending w with
      | [] => w
      | text :: rest =>
          if ok then handleCopy_resume text rest w else handleCopy_reject rest w
      end
  | Elapse ms => elapse ms w
  end.

Definition run (props : CodeBlockProps) (w : World) (trace : list Event) : World :=
  fold_left (step props) trace w.

(** What the widget shows. *)
Record Rendered : Set := {
  badge : option string;
  heading : option string;
  buttonText : string;
  highlighted : string;
  highlightLanguage : string;
  lineNumbers : bool
}.

Definition render (props : CodeBlockProps) (w : World) : Rendered :=
  {| badge := match variant props with
              | neutral => None
              | v => Some (variantLabel v)
              end;
     heading := match title props with
                | Some t => if truthy t then Some t else None
                | None => None
                end;
     buttonText := if copied w then "Copied!" else "Copy";
     highlighted := trim (code props);
     highlightLanguage := language props;
     lineNumbers := showLineNumbers props |}.

End CodeBlock.

(** ** HomePage.tsx, the patterns section *)

Module HomeGrid.

(** An element of the grid: its React key and the card. *)
Record Item : Set := { key : string; card : PatternCard.Card }.

Definition grid_of (patterns : list SecurityPattern) : list Item :=
  PatternPage.map_indexed
    (fun index pattern =>
       {| key := id pattern;
          card := PatternCard.PatternCard
                    {| PatternCard.id := id pattern;
                       PatternCard.title := title pattern;
                       PatternCard.description := description pattern;
                       PatternCard.severity := severity pattern;
                       PatternCard.category := category pattern;
                       PatternCard.index := index |} |})
    0 patterns.

Definition grid : list Item := grid_of securityPatterns.

End HomeGrid.

(** ** Layout.tsx *)

Module Layout.

Inductive Icon : Set := Home | BookOpen.

Record NavItem : Set := { path : string; label : string; icon : Icon }.

Definition navItems : list NavItem :=
  [ {| path := "/"; label := "Patterns"; icon := Home |};
    {| path := "/deep-dive"; label := "Deep Dive"; icon := BookOpen |} ].

(** [location.pathname === item.path]. *)
Definition isActive (pathname : string) (item : NavItem) : bool :=
  strict_eq pathname (path item).

Record NavLink : Set := { to : string; className : string; text : string }.

Definition navLink (pathname : string) (item : NavItem) : NavLink :=
  {| to := path item;
     className :=
       "flex items-center gap-2 px-4 py-2 rounded-lg transition-all duration-300 "
       ++ (if isActive pathname item
           then "bg-primary/20 text-primary border border-primary/30"
           else "text-text-secondary hover:text-text hover:bg-surface-light");
     text := label item |}.

(** The links of the header, for the current [location.pathname]. *)
Definition nav (pathname : string) : list NavLink :=
  map (navLink pathname) navItems.

End Layout.

(** ** DeepDivePage.tsx *)

Module DeepDivePage.

Inductive Icon : Set := BookOpen | Eye | AlertTriangle | Shield | CheckCircle | Target.

Module Topic.
Record t : Set := { id : string; title : string; icon : Icon; content : string }.
End Topic.

Definition sections : list Topic.t :=
  [
    {| Topic.id := "introduction";
       Topic.title := "Introduction";
       Topic.icon := BookOpen;
       Topic.content := "
Security remains one of the biggest challenges in Solana program development. Many exploits do not come from complex attacks, but from simple mistakes: missing account validation, incorrect authority checks, unsafe arithmetic, or misunderstood CPI behavior.

Anchor and Pinocchio provide strong abstractions, but they do not automatically make programs safe. Developers still need to understand why a pattern is dangerous and how to fix it correctly.

This resource focuses on building a clear, educational security reference for Solana developers by contrasting vulnerable code with secure alternatives. The goal is to make security concepts practical and obvious, especially for developers learning Anchor or Pinocchio.
      " |};
    {| Topic.id := "account-model";
       Topic.title := "Understanding Solana's Account Model";
       Topic.icon := Eye;
       Topic.content := "
Before diving into vulnerabilities, it's crucial to understand Solana's account model:

**Key Concepts:**
- Every piece of data on Solana lives in an " ++ dq ++ "account" ++ dq ++ "
- Accounts have an " ++ dq ++ "owner" ++ dq ++ " program that controls modifications
- Programs are stateless - they read/write to accounts
- Transactions specify which accounts to use

**Security Implications:**
- Programs must verify accounts are what they claim to be
- The owner field determines who can modify account data
- Signers must be verified for authorization
- PDAs provide deterministic, program-controlled addresses

**Common Misconceptions:**
- " ++ dq ++ "Anchor handles all security" ++ dq ++ " - FALSE, you must still validate
- " ++ dq ++ "If it compiles, it's safe" ++ dq ++ " - FALSE, logic errors aren't caught
- " ++ dq ++ "PDAs are always secure" ++ dq ++ " - FALSE, seeds must be carefully chosen
      " |};
    {| Topic.id := "vulnerability-categories";
       Topic.title := "Vulnerability Categories";
       Topic.icon := AlertTriangle;
       Topic.content := "
Solana vulnerabilities generally fall into these categories:

**1. Account Validation Failures**
- Missing signer checks
- Missing owner verification
- Incorrect PDA derivation
- Account data type confusion

**2. Arithmetic Issues**
- Integer overflow/underflow
- Precision loss in calculations
- Incorrect decimal handling

**3. Access Control Failures**
- Missing authority checks
- Incorrect permission logic
- Privilege escalation

**4. Cross-Program Invocation (CPI) Issues**
- Calling unverified programs
- Reentrancy vulnerabilities
- Incorrect signer propagation

**5. State Management Issues**
- Race conditions
- Stale data usage
- Incomplete state updates

**6. Economic/Logic Vulnerabilities**
- Price manipulation
- Flash loan attacks
- Sandwich attacks
      " |};
    {| Topic.id := "anchor-security";
       Topic.title := "Anchor Security Features";
       Topic.icon := Shield;
       Topic.content := "
Anchor provides several security features, but understanding their limitations is crucial:

**Account Types:**
- `Signer<'info>` - Verifies account signed the transaction
- `Account<'info, T>` - Deserializes and validates account type
- `Program<'info, T>` - Verifies program ID matches expected

**Constraints:**
- `#[account(mut)]` - Marks account as mutable
- `#[account(has_one = field)]` - Verifies field matches
- `#[account(seeds = [...], bump)]` - Verifies PDA derivation
- `#[account(owner = program_id)]` - Verifies account owner

**What Anchor DOESN'T Do:**
- Validate business logic
- Prevent arithmetic overflow (in release mode)
- Verify relationships between accounts automatically
- Protect against reentrancy
- Validate external program behavior
      " |};
    {| Topic.id := "best-practices";
       Topic.title := "Security Best Practices";
       Topic.icon := CheckCircle;
       Topic.content := "
Follow these practices to write secure Solana programs:

**1. Validate Everything**
- Every account should have explicit validation
- Use constraints liberally
- Verify relationships between accounts

**2. Use Checked Arithmetic**
- Always use checked_add, checked_sub, checked_mul
- Consider using u128 for intermediate calculations
- Validate bounds before and after operations

**3. Follow CEI Pattern**
- Checks: Validate all inputs and state
- Effects: Update state
- Interactions: Make external calls last

**4. Minimize Trust**
- Don't trust account data without verification
- Verify program IDs for CPI
- Use PDAs for program-controlled accounts

**5. Test Thoroughly**
- Write tests for edge cases
- Test with malicious inputs
- Simulate attack scenarios

**6. Audit and Review**
- Get external security audits
- Use static analysis tools
- Review code changes carefully
      " |};
    {| Topic.id := "testing-security";
       Topic.title := "Testing for Security";
       Topic.icon := Target;
       Topic.content := "
Effective security testing requires thinking like an attacker:

**Test Categories:**

1. **Input Validation Tests**
   - Pass zero values
   - Pass maximum values
   - Pass invalid account types

2. **Authorization Tests**
   - Call without required signers
   - Call with wrong authority
   - Test permission boundaries

3. **State Manipulation Tests**
   - Test with stale state
   - Test concurrent operations
   - Test partial state updates

4. **Economic Tests**
   - Test with extreme prices
   - Test rounding behavior
   - Test fee calculations

**Testing Tools:**
- Anchor's testing framework
- Bankrun for fast local testing
- Trident for fuzzing
- Custom attack simulations
      " |}
  ].

(** An entry of the table of contents. *)
Record TocEntry : Set := { href : string; number : nat; caption : string }.

Definition toc_of (topics : list Topic.t) : list TocEntry :=
  PatternPage.map_indexed
    (fun index section =>
       {| href := "#" ++ Topic.id section;
          number := index + 1;
          caption := Topic.title section |})
    0 topics.

(** What a line of a section's content becomes. *)
Inductive Block : Set :=
| Nothing
| H3 (key : nat) (text : string)
| Li (key : nat) (text : string)
| LiDecimal (key : nat) (text : string)
| Para (key : nat) (text : string).

Definition contentLine (i : nat) (paragraph : string) : Block :=
  if startsWith (trim paragraph) "**" && endsWith (trim paragraph) "**"
  then H3 i (strip_stars paragraph)
  else if startsWith (trim paragraph) "- "
  then Li i (remove_first "- " paragraph)
  else if matches_number (trim paragraph)
  then LiDecimal i (remove_number paragraph)
  else if truthy (trim paragraph) then Para i paragraph else Nothing.

Definition contentBlock (content : string) : list Block :=
  PatternPage.map_indexed contentLine 0 (split_lines content).

(** A rendered section: its anchor, its number and title, its blocks. *)
Record SectionView : Set := {
  anchor : string;
  ordinal : nat;
  headline : string;
  blocks : list Block
}.

Definition sections_of (topics : list Topic.t) : list SectionView :=
  PatternPage.map_indexed
    (fun index section =>
       {| anchor := Topic.id section;
          ordinal := index + 1;
          headline := Topic.title section;
          blocks := contentBlock (Topic.content section) |})
    0 topics.

(** A link of the closing block: its key, its target and its texts. *)
Record PatternLink : Set := { key : string; to : string; tag : string; shown : string }.

(** [securityPatterns.slice(0, 3).map(...)]. *)
Definition patternLinks_of (patterns : list SecurityPattern) : list PatternLink :=
  map (fun pattern =>
         {| key := id pattern;
            to := "/pattern/" ++ id pattern;
            tag := category pattern;
            shown := title pattern |})
      (JsArray.slice patterns 0 3).

Record View : Set := {
  toc : list TocEntry;
  body : list SectionView;
  patternCount : nat;
  patternLinks : list PatternLink
}.

Definition DeepDivePage : View :=
  {| toc := toc_of sections;
     body := sections_of sections;
     patternCount := length securityPatterns;
     patternLinks := patternLinks_of securityPatterns |}.

End DeepDivePage.

(** ** Vocabulary of the statements *)

(** A test for pairwise distinct strings. *)
Fixpoint distinct (l : list string) : bool :=
  match l with
  | [] => true
  | x :: rest => negb (existsb (String.eqb x) rest) && distinct rest
  end.

Definition Severity_eqb (a b : Severity) : bool :=
  match a, b with
  | critical, critical | high, high | medium, medium => true
  | _, _ => false
  end.

(** How many records carry a severity. *)
Definition count_severity (s : Severity) (patterns : list SecurityPattern) : nat :=
  length (filter (fun p => Severity_eqb (severity p) s) patterns).

(** No two stars in a row. *)
Fixpoint no_star_pair (s : string) : bool :=
  match s with
  | String c rest =>
      match rest with
      | String c' _ => negb (Ascii.eqb c "*" && Ascii.eqb c' "*") && no_star_pair rest
      | EmptyString => true
      end
  | EmptyString => true
  end.

(** How many times the copy button is clicked in a trace. *)
Fixpoint clicks (trace : list CodeBlock.Event) : nat :=
  match trace with
  | [] => 0
  | CodeBlock.Click :: rest => S (clicks rest)
  | _ :: rest => clicks rest
  end.

(** The texts of the paragraphs among the children, in order. *)
Fixpoint paragraphs (children : list PatternPage.Child) : list string :=
  match children with
  | [] => []
  | PatternPage.P _ _ text :: rest => text :: paragraphs rest
  | PatternPage.Blank :: rest => paragraphs rest
  end.

(** What every state of a session of the widget satisfies: a pending timer
    is due later than now and at most 2000 ms from now; while the indicator
    is on a timer is pending; every text still to settle or held by the
    clipboard is the code. *)
Definition session_invariant (props : CodeBlock.CodeBlockProps) (w : CodeBlock.World) : Prop :=
  Forall (fun due => (CodeBlock.now w < due <= CodeBlock.now w + 2000)%N)
         (CodeBlock.timers w) /\
  (CodeBlock.copied w = true -> CodeBlock.timers w <> []) /\
  Forall (eq (CodeBlock.code props)) (CodeBlock.pending w) /\
  (CodeBlock.clipboard w = None \/ CodeBlock.clipboard w = Some (CodeBlock.code props)).

(** A byte that is ASCII white space or a control character, or is not
    ASCII at all: [trim] strips no other byte. *)
Definition strippable (c : ascii) : Prop :=
  (N_of_ascii c <= 32 \/ 128 <= N_of_ascii c)%N.

(** * Properties *)

Open Scope list_scope.

(** ** Array methods *)

Section ArrayFacts.
Context {A : Type}.
Implicit Types (f : A -> bool) (l : list A).

Lemma find_none_iff f l :
  JsArray.find f l = None <-> Forall (fun x => f x = false) l.
Proof.
  induction l as [|x l IH]; simpl.
  - split; [constructor | reflexivity].
  - destruct (f x) eqn:Hx.
    + split; [discriminate | intros H; inversion H; congruence].
    + rewrite IH. split; [now constructor | intros H; now inversion H].
Qed.

(** [find] returns the first element that satisfies the test. *)
Lemma find_some_iff f l p :
  JsArray.find f l = Some p <->
  exists before after,
    l = before ++ p :: after /\ f p = true /\ Forall (fun x => f x = false) before.
Proof.
  induction l as [|x l IH]; simpl.
  - split; [discriminate | intros (b & a & H & _); now destruct b].
  - destruct (f x) eqn:Hx.
    + split.
      * intros [= ->]. exists [], l. repeat split; auto.
      * intros (b & a & H & Hp & Hb). destruct b as [|y b]; simpl in H.
        -- now injection H as -> _.
        -- injection H as -> _. inversion Hb; congruence.
    + rewrite IH. split.
      * intros (b & a & -> & Hp & Hb). exists (x :: b), a. repeat split; auto.
      * intros (b & a & H & Hp & Hb). destruct b as [|y b]; simpl in H.
        -- injection H as -> _. congruence.
        -- injection H as -> ->. exists b, a. inversion Hb; auto.
Qed.

Lemma findIndex_from_first f before p after k :
  f p = true -> Forall (fun x => f x = false) before ->
  JsArray.findIndex_from f (before ++ p :: after) k = (k + Z.of_nat (length before))%Z.
Proof.
  intros Hp Hb. revert k.
  induction Hb as [|x b Hx Hb IH]; intros k; simpl.
  - rewrite Hp. lia.
  - rewrite Hx, IH. lia.
Qed.

Lemma get_of_nat l (n : nat) : JsArray.get l (Z.of_nat n) = nth_error l n.
Proof.
  unfold JsArray.get. destruct (Z.ltb_spec (Z.of_nat n) 0); [lia|].
  now rewrite Nat2Z.id.
Qed.

Lemma get_negative l k : (k < 0)%Z -> JsArray.get l k = None.
Proof.
  intros H. unfold JsArray.get. now destruct (Z.ltb_spec k 0); [|lia].
Qed.

(** Elements with pairwise distinct keys: the one at position [i] is the
    first to carry its key. *)
Lemma nth_error_first_key (key : A -> string) l i p :
  NoDup (map key l) -> nth_error l i = Some p ->
  exists after,
    l = firstn i l ++ p :: after /\
    length (firstn i l) = i /\
    Forall (fun x => String.eqb (key x) (key p) = false) (firstn i l).
Proof.
  revert i. induction l as [|x l IH]; intros i Hnd Hi.
  - now destruct i.
  - simpl in Hnd. inversion Hnd as [|? ? Hx Hnd']; subst.
    destruct i as [|i]; simpl in Hi.
    + injection Hi as ->. exists l. repeat split; constructor.
    + destruct (IH i Hnd' Hi) as (after & Hl & Hlen & Hall).
      exists after. simpl. repeat split.
      * now rewrite <- Hl.
      * now rewrite Hlen.
      * constructor; auto.
        apply String.eqb_neq. intros Heq. apply Hx. rewrite Heq.
        apply in_map. eapply nth_error_In; eauto.
Qed.

End ArrayFacts.

Lemma distinct_NoDup l : distinct l = true -> NoDup l.
Proof.
  induction l as [|x l IH]; simpl; intros H.
  - constructor.
  - apply andb_prop in H as [Hx Hl]. constructor; auto.
    intros Hin. apply negb_true_iff in Hx.
    assert (existsb (String.eqb x) l = true); [|congruence].
    apply existsb_exists. exists x. split; auto. apply String.eqb_refl.
Qed.

(** ** The dataset *)

Lemma ids_authored :
  map id securityPatterns =
  [ "missing-signer-check"; "missing-owner-check"; "integer-overflow";
    "pda-seed-collision"; "unsafe-cpi"; "account-data-matching" ].
Proof. reflexivity. Qed.

Lemma ids_NoDup : NoDup (map id securityPatterns).
Proof. rewrite ids_authored. apply distinct_NoDup. reflexivity. Qed.

Lemma severities_authored :
  map severity securityPatterns = [critical; critical; critical; high; critical; high].
Proof. reflexivity. Qed.

Lemma strict_eq_eq a b : strict_eq a b = true <-> a = b.
Proof. apply String.eqb_eq. Qed.

Lemma strict_eq_neq a b : strict_eq a b = false <-> a <> b.
Proof. apply String.eqb_neq. Qed.

Lemma Forall_id_neq (s : string) (l : list SecurityPattern) :
  Forall (fun p => strict_eq (id p) s = false) l <-> Forall (fun p => id p <> s) l.
Proof.
  split; intros H; eapply Forall_impl; try exact H;
    intros p Hp; now apply strict_eq_neq.
Qed.

(** The record at a position of the dataset is the first with its id. *)
Lemma authored_first (i : nat) (p : SecurityPattern) :
  nth_error securityPatterns i = Some p ->
  exists before after,
    securityPatterns = before ++ p :: after /\ length before = i /\
    Forall (fun q => strict_eq (id q) (id p) = false) before.
Proof.
  intros Hi.
  destruct (nth_error_first_key id _ _ _ ids_NoDup Hi) as (after & Hl & Hlen & Hall).
  now exists (firstn i securityPatterns), after.
Qed.

(** C2: for every record of the dataset, [getPatternById] applied to the
    record's id returns that very record. *)
Theorem getPatternById_roundtrip (p : SecurityPattern) :
  In p securityPatterns -> getPatternById (id p) = Some p.
Proof.
  intros Hin. apply In_nth_error in Hin as [i Hi].
  destruct (authored_first i p Hi) as (before & after & Hl & _ & Hall).
  unfold getPatternById. apply find_some_iff.
  exists before, after. repeat split; auto. apply String.eqb_refl.
Qed.

Lemma getPatternById_roundtrip_witness :
  In unsafe_cpi securityPatterns /\ getPatternById (id unsafe_cpi) = Some unsafe_cpi.
Proof.
  assert (H : In unsafe_cpi securityPatterns).
  { unfold securityPatterns. simpl. auto 10. }
  split; [exact H | exact (getPatternById_roundtrip unsafe_cpi H)].
Defined.

(** C3: an identifier that is the id of no record gives [None], the
    not-found outcome, which is a value and not an exception; in general the
    result is the first record, in dataset order, whose id is the input. *)
Theorem getPatternById_first_match (s : string) :
  (Forall (fun p => id p <> s) securityPatterns -> getPatternById s = None) /\
  (forall p,
     getPatternById s = Some p <->
     exists before after,
       securityPatterns = before ++ p :: after /\ id p = s /\
       Forall (fun q => id q <> s) before).
Proof.
  unfold getPatternById. split.
  - intros H. apply find_none_iff. now apply Forall_id_neq.
  - intros p. rewrite find_some_iff. split.
    + intros (b & a & Hl & Hp & Hb). exists b, a.
      repeat split; auto; [now apply strict_eq_eq | now apply Forall_id_neq].
    + intros (b & a & Hl & Hp & Hb). exists b, a.
      repeat split; auto; [now apply strict_eq_eq | now apply Forall_id_neq].
Qed.

Lemma getPatternById_first_match_witness :
  Forall (fun p => id p <> "nonexistent-id") securityPatterns /\
  getPatternById "nonexistent-id" = None.
Proof.
  assert (H : Forall (fun p => id p <> "nonexistent-id") securityPatterns).
  { apply Forall_id_neq. unfold securityPatterns.
    repeat (constructor; [reflexivity|]). constructor. }
  split; [exact H | exact (proj1 (getPatternById_first_match "nonexistent-id") H)].
Defined.

(** C9: the ids of the dataset are pairwise distinct: records at two
    different positions have different ids. *)
Theorem ids_unique (i j : nat) (p q : SecurityPattern) :
  nth_error securityPatterns i = Some p ->
  nth_error securityPatterns j = Some q ->
  i <> j -> id p <> id q.
Proof.
  intros Hi Hj Hne Heq. apply Hne.
  pose proof ids_NoDup as Hnd.
  rewrite NoDup_nth_error in Hnd. apply Hnd.
  - rewrite length_map. apply nth_error_Some. congruence.
  - rewrite !nth_error_map, Hi, Hj. simpl. now rewrite Heq.
Qed.

Lemma ids_unique_witness :
  nth_error securityPatterns 0 = Some missing_signer_check /\
  nth_error securityPatterns 5 = Some account_data_matching /\
  0 <> 5 /\ id missing_signer_check <> id account_data_matching.
Proof.
  repeat split; try reflexivity; try lia.
  apply (ids_unique 0 5); [reflexivity | reflexivity | lia].
Defined.

(** C10: every record of the dataset is [critical] or [high], four of the
    first kind and two of the second; none is [medium], so no record is
    shown with the [medium] entry of [severityColors]. *)
Theorem severities_critical_or_high :
  Forall (fun p => severity p = critical \/ severity p = high) securityPatterns /\
  count_severity critical securityPatterns = 4 /\
  count_severity high securityPatterns = 2 /\
  count_severity medium securityPatterns = 0 /\
  Forall (fun p => PatternCard.severityColors (severity p)
                   <> PatternCard.severityColors medium) securityPatterns.
Proof.
  assert (H : Forall (fun p => severity p = critical \/ severity p = high)
                securityPatterns).
  { unfold securityPatterns. repeat (constructor; [simpl; auto|]). constructor. }
  repeat split; try reflexivity; auto.
  eapply Forall_impl; [|exact H].
  intros p [-> | ->]; discriminate.
Qed.

(** C8: the pattern count of the Home page is the length of the dataset,
    whatever the dataset is, and 6 for the dataset as authored; the three
    other figures are fixed strings. *)
Theorem pattern_count_stat :
  (forall patterns,
     map (fun s => (HomePage.label s, HomePage.value s)) (HomePage.stats_of patterns)
     = [ ("Security Patterns", HomePage.Num (length patterns));
         ("Vulnerability Types", HomePage.Str "6+");
         ("Code Examples", HomePage.Str "12+");
         ("Best Practices", HomePage.Str "30+") ]) /\
  length securityPatterns = 6 /\
  map HomePage.value HomePage.stats
  = [HomePage.Num 6; HomePage.Str "6+"; HomePage.Str "12+"; HomePage.Str "30+"].
Proof. repeat split. Qed.

(** ** The detail page *)

Lemma or_empty_Some (s : string) : or_empty (Some s) = s.
Proof. now destruct s. Qed.

Lemma findIndex_authored (i : nat) (p : SecurityPattern) :
  nth_error securityPatterns i = Some p ->
  JsArray.findIndex (fun q => strict_eq_undef (id q) (Some (id p))) securityPatterns
  = Z.of_nat i.
Proof.
  intros Hi.
  destruct (authored_first i p Hi) as (before & after & Hl & Hlen & Hall).
  unfold JsArray.findIndex. rewrite Hl.
  rewrite findIndex_from_first; auto.
  - lia.
  - apply String.eqb_refl.
Qed.

(** C1: on the page of the record at position [i], the previous link
    targets the record at position [i - 1] and the next link the record at
    position [i + 1]: the link's target is [/pattern/] followed by that
    record's id, it shows that record's title, and the page the target is
    routed to shows that very record; the first record has no previous link
    and the last no next link. *)
Theorem prev_next_links (i : nat) (p : SecurityPattern) :
  nth_error securityPatterns i = Some p ->
  exists d,
    PatternPage.PatternPage (Some (id p)) = PatternPage.Found d /\
    PatternPage.pattern d = p /\
    PatternPage.prevLink d =
      match i with
      | O => None
      | S j => option_map PatternPage.navLink (nth_error securityPatterns j)
      end /\
    PatternPage.nextLink d =
      option_map PatternPage.navLink (nth_error securityPatterns (S i)) /\
    (i = 0 -> PatternPage.prevLink d = None) /\
    (0 < i ->
       exists q l d',
         nth_error securityPatterns (i - 1) = Some q /\
         PatternPage.prevLink d = Some l /\
         l = PatternPage.navLink q /\
         PatternPage.to l = ("/pattern/" ++ id q)%string /\
         PatternPage.shown l = title q /\
         PatternPage.PatternPage (Some (id q)) = PatternPage.Found d' /\
         PatternPage.pattern d' = q) /\
    (S i = length securityPatterns -> PatternPage.nextLink d = None) /\
    (S i < length securityPatterns ->
       exists q l d',
         nth_error securityPatterns (i + 1) = Some q /\
         PatternPage.nextLink d = Some l /\
         l = PatternPage.navLink q /\
         PatternPage.to l = ("/pattern/" ++ id q)%string /\
         PatternPage.shown l = title q /\
         PatternPage.PatternPage (Some (id q)) = PatternPage.Found d' /\
         PatternPage.pattern d' = q).
Proof.
  intros Hi.
  assert (Hlook : forall j r, nth_error securityPatterns j = Some r ->
                              getPatternById (id r) = Some r).
  { intros j r Hj.
    destruct (authored_first j r Hj) as (before & after & Hl & _ & Hall).
    unfold getPatternById. apply find_some_iff.
    exists before, after. repeat split; auto. apply String.eqb_refl. }
  assert (Hpage : forall j r, nth_error securityPatterns j = Some r ->
                    exists d', PatternPage.PatternPage (Some (id r)) = PatternPage.Found d' /\
                               PatternPage.pattern d' = r).
  { intros j r Hj. unfold PatternPage.PatternPage.
    rewrite or_empty_Some, (Hlook j r Hj). eexists. split; reflexivity. }
  unfold PatternPage.PatternPage at 1.
  rewrite or_empty_Some, (Hlook i p Hi), (findIndex_authored i p Hi).
  eexists. split; [reflexivity|]. cbn [PatternPage.pattern PatternPage.prevLink PatternPage.nextLink].
  replace (Z.of_nat i + 1)%Z with (Z.of_nat (S i)) by lia.
  rewrite get_of_nat.
  assert (Hprev : JsArray.get securityPatterns (Z.of_nat i - 1) =
                  match i with O => None | S j => nth_error securityPatterns j end).
  { destruct i as [|j].
    - apply get_negative. lia.
    - replace (Z.of_nat (S j) - 1)%Z with (Z.of_nat j) by lia. apply get_of_nat. }
  rewrite Hprev.
  split; [reflexivity|]. split; [now destruct i|]. split; [reflexivity|].
  split; [now intros ->|]. split; [|split].
  - intros Hpos. destruct i as [|j]; [lia|].
    replace (S j - 1) with j by lia.
    destruct (nth_error securityPatterns j) as [q|] eqn:Hq.
    + destruct (Hpage j q Hq) as (d' & Hd' & Hq').
      exists q, (PatternPage.navLink q), d'.
      repeat split; assumption || reflexivity.
    + apply nth_error_None in Hq.
      assert (S j < length securityPatterns) by (apply nth_error_Some; congruence).
      lia.
  - intros Hlast.
    assert (Hn : nth_error securityPatterns (S i) = None)
      by (apply nth_error_None; lia).
    now rewrite Hn.
  - intros Hlt. replace (i + 1) with (S i) by lia.
    destruct (nth_error securityPatterns (S i)) as [q|] eqn:Hq.
    + destruct (Hpage (S i) q Hq) as (d' & Hd' & Hq').
      exists q, (PatternPage.navLink q), d'.
      repeat split; assumption || reflexivity.
    + apply nth_error_None in Hq. lia.
Qed.

Lemma prev_next_links_witness :
  nth_error securityPatterns 2 = Some integer_overflow /\
  exists d lp ln,
    PatternPage.PatternPage (Some (id integer_overflow)) = PatternPage.Found d /\
    PatternPage.prevLink d = Some lp /\
    PatternPage.to lp = "/pattern/missing-owner-check" /\
    PatternPage.shown lp = "Missing Account Owner Verification" /\
    PatternPage.nextLink d = Some ln /\
    PatternPage.to ln = "/pattern/pda-seed-collision" /\
    PatternPage.shown ln = "PDA Seed Collision".
Proof.
  split; [reflexivity|].
  destruct (prev_next_links 2 integer_overflow eq_refl)
    as (d & Hd & _ & _ & _ & _ & Hprev & _ & Hnext).
  destruct (Hprev ltac:(cbv; repeat constructor))
    as (q & lp & _ & Hq & Hlp & _ & Htop & Hshp & _).
  destruct (Hnext ltac:(cbv; repeat constructor))
    as (r & ln & _ & Hr & Hln & _ & Hton & Hshn & _).
  injection Hq as <-. injection Hr as <-.
  exists d, lp, ln. repeat split; assumption.
Defined.

(** The links of the first and of the last record, evaluated. *)
Example links_of_first :
  match PatternPage.PatternPage (Some "missing-signer-check") with
  | PatternPage.Found d =>
      PatternPage.prevLink d = None /\
      option_map PatternPage.to (PatternPage.nextLink d) = Some "/pattern/missing-owner-check"
  | PatternPage.NotFound => False
  end.
Proof. vm_compute. split; reflexivity. Qed.

Example links_of_last :
  match PatternPage.PatternPage (Some "account-data-matching") with
  | PatternPage.Found d =>
      option_map PatternPage.to (PatternPage.prevLink d) = Some "/pattern/unsafe-cpi" /\
      PatternPage.nextLink d = None
  | PatternPage.NotFound => False
  end.
Proof. vm_compute. split; reflexivity. Qed.

Example page_of_unknown_id :
  PatternPage.PatternPage (Some "nonexistent-id") = PatternPage.NotFound /\
  PatternPage.PatternPage None = PatternPage.NotFound.
Proof. split; reflexivity. Qed.

(** ** The attack scenario block *)

Lemma strip_stars_pair (c c' : ascii) (r : string) :
  Ascii.eqb c "*" = true -> Ascii.eqb c' "*" = true ->
  strip_stars (String c (String c' r)) = strip_stars r.
Proof. intros Hc Hc'. cbn [strip_stars]. now rewrite Hc, Hc'. Qed.

Lemma strip_stars_keep (c c' : ascii) (r : string) :
  Ascii.eqb c "*" && Ascii.eqb c' "*" = false ->
  strip_stars (String c (String c' r)) = String c (strip_stars (String c' r)).
Proof. intros H. cbn [strip_stars]. now rewrite H. Qed.

Lemma strip_stars_other (c : ascii) (r : string) :
  Ascii.eqb c "*" = false ->
  strip_stars (String c r) = String c (strip_stars r).
Proof.
  intros Hc. destruct r as [|c' r]; [reflexivity|].
  apply strip_stars_keep. now rewrite Hc.
Qed.

Lemma no_star_pair_cons (c : ascii) (t : string) :
  Ascii.eqb c "*" = false -> no_star_pair (String c t) = no_star_pair t.
Proof. intros Hc. destruct t; cbn [no_star_pair]; [reflexivity | now rewrite Hc]. Qed.

Lemma no_star_pair_cons2 (c c' : ascii) (t : string) :
  Ascii.eqb c' "*" = false ->
  no_star_pair (String c (String c' t)) = no_star_pair t.
Proof.
  intros Hc'. destruct t; cbn [no_star_pair]; rewrite Hc', andb_false_r; reflexivity.
Qed.

(** What is left of a line after [strip_stars] has no two stars in a row. *)
Lemma strip_stars_no_pair (s : string) : no_star_pair (strip_stars s) = true.
Proof.
  assert (H : forall n t, String.length t <= n -> no_star_pair (strip_stars t) = true).
  { induction n as [|n IH]; intros t Hlen.
    - destruct t; [reflexivity | simpl in Hlen; lia].
    - destruct t as [|c [|c' r]]; try reflexivity.
      simpl in Hlen.
      destruct (Ascii.eqb c' "*") eqn:Hc'.
      + destruct (Ascii.eqb c "*") eqn:Hc.
        * rewrite strip_stars_pair by assumption. apply IH. lia.
        * rewrite strip_stars_other, no_star_pair_cons by assumption.
          apply IH. simpl. lia.
      + rewrite strip_stars_keep by (now rewrite Hc', andb_false_r).
        rewrite strip_stars_other, no_star_pair_cons2 by assumption.
        apply IH. lia. }
  apply (H (String.length s) s). lia.
Qed.






Lemma map_indexed_nth {A B : Type} (f : nat -> A -> B) (l : list A) (k i : nat) :
  nth_error (PatternPage.map_indexed f k l) i = option_map (f (k + i)) (nth_error l i).
Proof.
  revert k i. induction l as [|x l IH]; intros k i.
  - now destruct i.
  - destruct i as [|i]; simpl.
    + now rewrite Nat.add_0_r.
    + rewrite IH. now replace (S k + i) with (k + S i) by lia.
Qed.

(** A text no record carries, with a marker that follows leading white
    space: the test for emphasis reads the line as it stands, so this line
    would be a plain paragraph. *)
Example indented_marker_not_emphasized :
  startsWith (trim "  **Impact:** funds are lost") "**" = true /\
  PatternPage.attackBlock "  **Impact:** funds are lost"
  = [PatternPage.P 0 EmptyString "  Impact: funds are lost"].
Proof. split; reflexivity. Qed.



(** The last line of an authored attack scenario is four spaces: it is not
    empty, and it is not rendered. *)
Example closing_line_not_rendered :
  last (split_lines (attackScenario unsafe_cpi)) EmptyString = "    " /\
  last (PatternPage.attackBlock (attackScenario unsafe_cpi)) PatternPage.Blank
  = PatternPage.Blank.
Proof. split; reflexivity. Qed.

(** ** The code display widget *)

Section CodeBlockFacts.
Import CodeBlock.
Variable props : CodeBlockProps.

Lemma elapse_copied (d : N) (w : World) :
  copied (elapse d w) = true <->
  copied w = true /\ Forall (fun due => (now w + d < due)%N) (timers w).
Proof.
  unfold elapse. cbn [copied].
  destruct (existsb (fun due => (due <=? now w + d)%N) (timers w)) eqn:He.
  - split; [discriminate|]. intros [_ Hall].
    apply existsb_exists in He as (due & Hin & Hdue).
    rewrite Forall_forall in Hall. specialize (Hall due Hin).
    apply N.leb_le in Hdue. lia.
  - split; [|tauto]. intros Hc. split; auto.
    apply Forall_forall. intros due Hin.
    destruct (N.ltb_spec (now w + d) due) as [|Hle]; auto.
    assert (existsb (fun due => (due <=? now w + d)%N) (timers w) = true);
      [|congruence].
    apply existsb_exists. exists due. split; auto. now apply N.leb_le.
Qed.

(** Time alone never turns the indicator on. *)
Lemma elapse_keeps_off (d : N) (w : World) :
  copied w = false -> copied (elapse d w) = false.
Proof.
  intros Hw. destruct (copied (elapse d w)) eqn:He; auto.
  apply elapse_copied in He. destruct He; congruence.
Qed.

Lemma run_elapse_quiet (ds : list N) (w : World) :
  copied w = false ->
  let w' := run props w (map Elapse ds) in
  copied w' = false /\ sink w' = sink w /\ pending w' = pending w /\
  clipboard w' = clipboard w /\ rejections w' = rejections w.
Proof.
  revert w. induction ds as [|d ds IH]; intros w Hw; cbn.
  - auto.
  - destruct (IH (elapse d w) (elapse_keeps_off d w Hw)) as (H1 & H2 & H3 & H4 & H5).
    repeat split; assumption.
Qed.

End CodeBlockFacts.

(** C4: the copy action hands the code string to the clipboard sink as it
    is, untrimmed; on success the clipboard holds that very string; the
    highlighter alone receives the trimmed text. *)
Theorem copy_sends_original (props : CodeBlock.CodeBlockProps) (w : CodeBlock.World) :
  CodeBlock.sink (CodeBlock.step props w CodeBlock.Click)
  = CodeBlock.code props :: CodeBlock.sink w /\
  CodeBlock.pending (CodeBlock.step props w CodeBlock.Click)
  = CodeBlock.pending w ++ [CodeBlock.code props] /\
  CodeBlock.clipboard
    (CodeBlock.run props CodeBlock.mounted [CodeBlock.Click; CodeBlock.Settle true])
  = Some (CodeBlock.code props) /\
  CodeBlock.highlighted (CodeBlock.render props w) = trim (CodeBlock.code props).
Proof. repeat split. Qed.

(** The string of the specification, with its white space at both ends. *)
Example copy_keeps_white_space :
  let text := ("  let x = 1;" ++ String "010"%char "  ")%string in
  let props := CodeBlock.withDefaults text in
  let w := CodeBlock.run props CodeBlock.mounted [CodeBlock.Click; CodeBlock.Settle true] in
  CodeBlock.sink w = [text] /\
  CodeBlock.clipboard w = Some text /\
  CodeBlock.highlighted (CodeBlock.render props w) = "let x = 1;" /\
  text <> "let x = 1;".
Proof. repeat split. discriminate. Qed.

(** A second copy made one second after the first: two timers are then
    pending, and the indicator goes off when the first comes due, one second
    after the second copy and not two. *)
Lemma second_copy_does_not_restart :
  CodeBlock.timers
    (CodeBlock.run
       (CodeBlock.withDefaults "let x = 1;")
       CodeBlock.mounted
       [CodeBlock.Click; CodeBlock.Settle true; CodeBlock.Elapse 1000;
        CodeBlock.Click; CodeBlock.Settle true])
  = [2000; 3000]%N /\
  CodeBlock.copied
    (CodeBlock.run
       (CodeBlock.withDefaults "let x = 1;")
       CodeBlock.mounted
       [CodeBlock.Click; CodeBlock.Settle true; CodeBlock.Elapse 1000;
        CodeBlock.Click; CodeBlock.Settle true; CodeBlock.Elapse 999])
  = true /\
  CodeBlock.copied
    (CodeBlock.run
       (CodeBlock.withDefaults "let x = 1;")
       CodeBlock.mounted
       [CodeBlock.Click; CodeBlock.Settle true; CodeBlock.Elapse 1000;
        CodeBlock.Click; CodeBlock.Settle true; CodeBlock.Elapse 1000])
  = false.
Proof. repeat split. Qed.

(** C5, amended: when a copy succeeds the indicator is on at once and a
    timer is added for 2000 ms later, the timers already pending being kept;
    the indicator is off once 2000 ms have passed; before that it stays on
    exactly as long as no earlier timer has come due, so for the whole
    2000 ms when none was pending. *)
Theorem copied_window (props : CodeBlock.CodeBlockProps) (w : CodeBlock.World)
    (text : string) (rest : list string) :
  CodeBlock.pending w = text :: rest ->
  CodeBlock.copied (CodeBlock.step props w (CodeBlock.Settle true)) = true /\
  CodeBlock.timers (CodeBlock.step props w (CodeBlock.Settle true))
  = CodeBlock.timers w ++ [(CodeBlock.now w + 2000)%N] /\
  (forall d, (2000 <= d)%N ->
     CodeBlock.copied
       (CodeBlock.run props w [CodeBlock.Settle true; CodeBlock.Elapse d]) = false) /\
  (forall d,
     CodeBlock.copied
       (CodeBlock.run props w [CodeBlock.Settle true; CodeBlock.Elapse d]) = true <->
     (d < 2000)%N /\
     Forall (fun due => (CodeBlock.now w + d < due)%N) (CodeBlock.timers w)) /\
  (CodeBlock.timers w = [] -> forall d, (d < 2000)%N ->
     CodeBlock.copied
       (CodeBlock.run props w [CodeBlock.Settle true; CodeBlock.Elapse d]) = true).
Proof.
  intros Hp.
  assert (Hiff : forall d,
     CodeBlock.copied
       (CodeBlock.run props w [CodeBlock.Settle true; CodeBlock.Elapse d]) = true <->
     (d < 2000)%N /\
     Forall (fun due => (CodeBlock.now w + d < due)%N) (CodeBlock.timers w)).
  { intros d. cbn [CodeBlock.run fold_left CodeBlock.step]. rewrite Hp.
    rewrite elapse_copied. cbn [CodeBlock.handleCopy_resume CodeBlock.copied
                                 CodeBlock.timers CodeBlock.now].
    rewrite Forall_app. split.
    - intros (_ & Hall & Hnew). split; auto. inversion Hnew; subst. lia.
    - intros (Hd & Hall). repeat split; auto. constructor; [lia | constructor]. }
  cbn [CodeBlock.step]. rewrite Hp.
  split; [reflexivity|]. split; [reflexivity|]. split; [|split].
  - intros d Hd.
    destruct (CodeBlock.copied
                (CodeBlock.run props w [CodeBlock.Settle true; CodeBlock.Elapse d]))
      eqn:Hc; auto.
    apply Hiff in Hc. lia.
  - exact Hiff.
  - intros Hnil d Hd. apply Hiff. rewrite Hnil. split; auto.
Qed.

Lemma copied_window_witness :
  CodeBlock.pending
    (CodeBlock.step
       (CodeBlock.withDefaults "let x = 1;")
       CodeBlock.mounted CodeBlock.Click)
  = ["let x = 1;"] /\
  CodeBlock.copied
    (CodeBlock.run
       (CodeBlock.withDefaults "let x = 1;")
       CodeBlock.mounted [CodeBlock.Click; CodeBlock.Settle true])
  = true.
Proof.
  split; [reflexivity|].
  exact (proj1 (copied_window
                  (CodeBlock.withDefaults "let x = 1;")
                  (CodeBlock.step (CodeBlock.withDefaults "let x = 1;")
                     CodeBlock.mounted CodeBlock.Click)
                  "let x = 1;" [] eq_refl)).
Defined.

(** C6: when the clipboard write fails the indicator, if off, stays off,
    then and for all the time that passes; nothing the widget shows changes,
    no timer is set, and no further write is issued; the rejected promise of
    [handleCopy] is left unhandled. *)
Theorem failed_copy_is_silent (props : CodeBlock.CodeBlockProps) (w : CodeBlock.World)
    (text : string) (rest : list string) (ds : list N) :
  CodeBlock.pending w = text :: rest ->
  CodeBlock.copied w = false ->
  CodeBlock.copied (CodeBlock.step props w (CodeBlock.Settle false)) = false /\
  CodeBlock.timers (CodeBlock.step props w (CodeBlock.Settle false)) = CodeBlock.timers w /\
  CodeBlock.render props (CodeBlock.step props w (CodeBlock.Settle false))
  = CodeBlock.render props w /\
  CodeBlock.sink (CodeBlock.step props w (CodeBlock.Settle false)) = CodeBlock.sink w /\
  CodeBlock.pending (CodeBlock.step props w (CodeBlock.Settle false)) = rest /\
  CodeBlock.clipboard (CodeBlock.step props w (CodeBlock.Settle false))
  = CodeBlock.clipboard w /\
  CodeBlock.rejections (CodeBlock.step props w (CodeBlock.Settle false))
  = S (CodeBlock.rejections w) /\
  CodeBlock.copied
    (CodeBlock.run props w (CodeBlock.Settle false :: map CodeBlock.Elapse ds)) = false /\
  CodeBlock.buttonText
    (CodeBlock.render props
       (CodeBlock.run props w (CodeBlock.Settle false :: map CodeBlock.Elapse ds)))
  = "Copy" /\
  CodeBlock.sink
    (CodeBlock.run props w (CodeBlock.Settle false :: map CodeBlock.Elapse ds))
  = CodeBlock.sink w.
Proof.
  intros Hp Hc.
  assert (Hstep : CodeBlock.step props w (CodeBlock.Settle false)
                  = CodeBlock.handleCopy_reject rest w)
    by (cbn [CodeBlock.step]; now rewrite Hp).
  assert (Hrun : CodeBlock.run props w (CodeBlock.Settle false :: map CodeBlock.Elapse ds)
                 = CodeBlock.run props (CodeBlock.handleCopy_reject rest w)
                     (map CodeBlock.Elapse ds))
    by (unfold CodeBlock.run; cbn [fold_left]; now rewrite Hstep).
  destruct (run_elapse_quiet props ds (CodeBlock.handleCopy_reject rest w) Hc)
    as (Hq1 & Hq2 & _).
  rewrite Hstep, Hrun. unfold CodeBlock.render. rewrite Hq1, Hq2.
  cbn [CodeBlock.handleCopy_reject CodeBlock.copied CodeBlock.timers CodeBlock.sink
       CodeBlock.pending CodeBlock.clipboard CodeBlock.rejections CodeBlock.buttonText].
  repeat split; auto.
Qed.

Lemma failed_copy_is_silent_witness :
  CodeBlock.pending
    (CodeBlock.step
       (CodeBlock.withDefaults "let x = 1;")
       CodeBlock.mounted CodeBlock.Click)
  = ["let x = 1;"] /\
  CodeBlock.copied
    (CodeBlock.step
       (CodeBlock.withDefaults "let x = 1;")
       CodeBlock.mounted CodeBlock.Click)
  = false /\
  CodeBlock.copied
    (CodeBlock.run
       (CodeBlock.withDefaults "let x = 1;")
       CodeBlock.mounted
       [CodeBlock.Click; CodeBlock.Settle false; CodeBlock.Elapse 2000; CodeBlock.Elapse 5000])
  = false.
Proof.
  split; [reflexivity|]. split; [reflexivity|].
  exact (proj1 (proj2 (proj2 (proj2 (proj2 (proj2 (proj2 (proj2
    (failed_copy_is_silent
       (CodeBlock.withDefaults "let x = 1;")
       (CodeBlock.step (CodeBlock.withDefaults "let x = 1;")
          CodeBlock.mounted CodeBlock.Click)
       "let x = 1;" [] [2000; 5000]%N eq_refl eq_refl))))))))).
Defined.

(** * Further properties *)

(** ** Navigation between the pages *)

Lemma get_In {A : Type} (l : list A) (k : Z) (x : A) :
  JsArray.get l k = Some x -> In x l.
Proof.
  unfold JsArray.get. destruct (k <? 0)%Z; [discriminate|]. apply nth_error_In.
Qed.

Lemma lookup_authored (p : SecurityPattern) :
  In p securityPatterns -> getPatternById (id p) = Some p.
Proof.
  intros Hin. apply In_nth_error in Hin as [i Hi].
  destruct (authored_first i p Hi) as (before & after & Hl & _ & Hall).
  unfold getPatternById. apply find_some_iff.
  exists before, after. repeat split; auto. apply String.eqb_refl.
Qed.

(** The page of the record at position [i], in full. *)
Lemma page_of_record (i : nat) (p : SecurityPattern) :
  nth_error securityPatterns i = Some p ->
  PatternPage.PatternPage (Some (id p)) =
  PatternPage.Found
    {| PatternPage.pattern := p;
       PatternPage.severityClass := PatternCard.severityColors (severity p);
       PatternPage.attack := PatternPage.attackBlock (attackScenario p);
       PatternPage.prevLink :=
         option_map PatternPage.navLink
           match i with O => None | S j => nth_error securityPatterns j end;
       PatternPage.nextLink :=
         option_map PatternPage.navLink (nth_error securityPatterns (S i)) |}.
Proof.
  intros Hi.
  assert (Hin : In p securityPatterns) by (eapply nth_error_In; eauto).
  unfold PatternPage.PatternPage.
  rewrite or_empty_Some, (lookup_authored p Hin), (findIndex_authored i p Hi).
  replace (Z.of_nat i + 1)%Z with (Z.of_nat (S i)) by lia.
  rewrite get_of_nat.
  destruct i as [|j].
  - now rewrite get_negative by lia.
  - replace (Z.of_nat (S j) - 1)%Z with (Z.of_nat j) by lia.
    now rewrite get_of_nat.
Qed.

(** X1: the detail page is the not-found view exactly when no record has the
    routed id, an absent id counting as the empty string; otherwise the
    record it shows is a record of the dataset and carries the routed id. *)
Theorem page_found_iff (id0 : option string) :
  match PatternPage.PatternPage id0 with
  | PatternPage.NotFound =>
      Forall (fun p => id p <> or_empty id0) securityPatterns
  | PatternPage.Found d =>
      In (PatternPage.pattern d) securityPatterns /\
      id (PatternPage.pattern d) = or_empty id0
  end.
Proof.
  unfold PatternPage.PatternPage.
  destruct (getPatternById (or_empty id0)) as [p|] eqn:Hget; unfold getPatternById in Hget.
  - apply find_some_iff in Hget as (before & after & Hl & Hp & _).
    cbn [PatternPage.pattern]. split.
    + rewrite Hl. apply in_or_app. right. now left.
    + now apply strict_eq_eq.
  - apply find_none_iff in Hget. now apply Forall_id_neq.
Qed.

(** X2: a previous or next link, on whatever page it appears, leads to the
    page of a record of the dataset: no link of the detail page is dead. *)
Theorem links_resolve (id0 : option string) (d : PatternPage.Detail)
    (l : PatternPage.NavLink) :
  PatternPage.PatternPage id0 = PatternPage.Found d ->
  PatternPage.prevLink d = Some l \/ PatternPage.nextLink d = Some l ->
  exists q d',
    In q securityPatterns /\
    PatternPage.to l = ("/pattern/" ++ id q)%string /\
    PatternPage.shown l = title q /\
    PatternPage.PatternPage (Some (id q)) = PatternPage.Found d' /\
    PatternPage.pattern d' = q.
Proof.
  unfold PatternPage.PatternPage at 1.
  destruct (getPatternById (or_empty id0)) as [p|]; [|discriminate].
  intros [= <-]. cbn [PatternPage.prevLink PatternPage.nextLink].
  assert (H : forall k, option_map PatternPage.navLink (JsArray.get securityPatterns k)
                        = Some l ->
              exists q, In q securityPatterns /\ l = PatternPage.navLink q).
  { intros k Hk. destruct (JsArray.get securityPatterns k) as [q|] eqn:Hq; [|discriminate].
    injection Hk as <-. exists q. split; auto. eapply get_In; eauto. }
  intros [Hl | Hl]; apply H in Hl as (q & Hin & ->);
    destruct (In_nth_error _ _ Hin) as [j Hj];
    exists q; eexists; (split; [exact Hin|]); (split; [reflexivity|]);
    (split; [reflexivity|]); (split; [apply (page_of_record j q Hj) | reflexivity]).
Qed.

Lemma links_resolve_witness :
  PatternPage.PatternPage (Some "unsafe-cpi")
  = PatternPage.Found
      {| PatternPage.pattern := unsafe_cpi;
         PatternPage.severityClass := PatternCard.severityColors critical;
         PatternPage.attack := PatternPage.attackBlock (attackScenario unsafe_cpi);
         PatternPage.prevLink := Some (PatternPage.navLink pda_seed_collision);
         PatternPage.nextLink := Some (PatternPage.navLink account_data_matching) |} /\
  exists q d',
    In q securityPatterns /\
    PatternPage.to (PatternPage.navLink account_data_matching) = ("/pattern/" ++ id q)%string /\
    PatternPage.PatternPage (Some (id q)) = PatternPage.Found d' /\
    PatternPage.pattern d' = q.
Proof.
  assert (H : PatternPage.PatternPage (Some "unsafe-cpi")
    = PatternPage.Found
      {| PatternPage.pattern := unsafe_cpi;
         PatternPage.severityClass := PatternCard.severityColors critical;
         PatternPage.attack := PatternPage.attackBlock (attackScenario unsafe_cpi);
         PatternPage.prevLink := Some (PatternPage.navLink pda_seed_collision);
         PatternPage.nextLink := Some (PatternPage.navLink account_data_matching) |})
    by exact (page_of_record 4 unsafe_cpi eq_refl).
  split; [exact H|].
  destruct (links_resolve _ _ (PatternPage.navLink account_data_matching) H
              (or_intror eq_refl)) as (q & d' & Hin & Hto & _ & Hpage & Hpat).
  exists q, d'. repeat split; assumption.
Defined.

(** X3: next and previous are inverse: when [q] follows [p] in the dataset,
    the next link on the page of [p] targets [/pattern/] followed by the id
    of [q] and shows the title of [q], the page that target is routed to
    shows [q], and the previous link on that page targets [/pattern/]
    followed by the id of [p] and shows the title of [p]. *)
Theorem next_then_previous (i : nat) (p q : SecurityPattern) :
  nth_error securityPatterns i = Some p ->
  nth_error securityPatterns (S i) = Some q ->
  exists dp dq ln lp,
    PatternPage.PatternPage (Some (id p)) = PatternPage.Found dp /\
    PatternPage.pattern dp = p /\
    PatternPage.nextLink dp = Some ln /\
    ln = PatternPage.navLink q /\
    PatternPage.to ln = ("/pattern/" ++ id q)%string /\
    PatternPage.shown ln = title q /\
    PatternPage.PatternPage (Some (id q)) = PatternPage.Found dq /\
    PatternPage.pattern dq = q /\
    PatternPage.prevLink dq = Some lp /\
    lp = PatternPage.navLink p /\
    PatternPage.to lp = ("/pattern/" ++ id p)%string /\
    PatternPage.shown lp = title p.
Proof.
  intros Hp Hq.
  eexists _, _, (PatternPage.navLink q), (PatternPage.navLink p).
  split; [apply (page_of_record i p Hp)|].
  split; [reflexivity|].
  split; [cbn [PatternPage.nextLink]; now rewrite Hq|].
  split; [reflexivity|]. split; [reflexivity|]. split; [reflexivity|].
  split; [apply (page_of_record (S i) q Hq)|].
  split; [reflexivity|].
  split; [cbn [PatternPage.prevLink]; now rewrite Hp|].
  split; [reflexivity|]. split; reflexivity.
Qed.

Lemma next_then_previous_witness :
  nth_error securityPatterns 3 = Some pda_seed_collision /\
  nth_error securityPatterns 4 = Some unsafe_cpi /\
  exists dp dq ln lp,
    PatternPage.PatternPage (Some "pda-seed-collision") = PatternPage.Found dp /\
    PatternPage.nextLink dp = Some ln /\
    PatternPage.to ln = "/pattern/unsafe-cpi" /\
    PatternPage.PatternPage (Some "unsafe-cpi") = PatternPage.Found dq /\
    PatternPage.pattern dq = unsafe_cpi /\
    PatternPage.prevLink dq = Some lp /\
    PatternPage.to lp = "/pattern/pda-seed-collision".
Proof.
  split; [reflexivity|]. split; [reflexivity|].
  destruct (next_then_previous 3 pda_seed_collision unsafe_cpi eq_refl eq_refl)
    as (dp & dq & ln & lp & H1 & _ & H2 & _ & H3 & _ & H4 & H5 & H6 & _ & H7 & _).
  exists dp, dq, ln, lp. repeat split; assumption.
Defined.

Lemma map_indexed_length {A B : Type} (f : nat -> A -> B) (l : list A) (k : nat) :
  length (PatternPage.map_indexed f k l) = length l.
Proof. revert k. induction l as [|x l IH]; intros k; simpl; auto. Qed.

(** X4: on the Home page the card at position [i] is the card of the record
    at position [i]: its key is the record's id, its entrance delay is [i]
    steps, and its link leads to the detail page of that very record.  Cards
    at different positions have different keys. *)
Theorem home_cards_lead_to_their_pages (i : nat) (p : SecurityPattern) :
  nth_error securityPatterns i = Some p ->
  exists item d,
    nth_error HomeGrid.grid i = Some item /\
    HomeGrid.key item = id p /\
    PatternCard.delaySteps (HomeGrid.card item) = i /\
    PatternCard.to (HomeGrid.card item) = ("/pattern/" ++ id p)%string /\
    PatternPage.PatternPage (Some (id p)) = PatternPage.Found d /\
    PatternPage.pattern d = p /\
    (forall j item', nth_error HomeGrid.grid j = Some item' ->
                     HomeGrid.key item' = HomeGrid.key item -> j = i).
Proof.
  intros Hi. unfold HomeGrid.grid, HomeGrid.grid_of.
  rewrite map_indexed_nth, Hi. cbn [option_map Nat.add].
  do 2 eexists. split; [reflexivity|].
  split; [reflexivity|]. split; [reflexivity|]. split; [reflexivity|].
  split; [apply (page_of_record i p Hi)|].
  split; [reflexivity|].
  intros j item'. rewrite map_indexed_nth.
  destruct (nth_error securityPatterns j) as [q|] eqn:Hj; [|discriminate].
  intros [= <-]. cbn [HomeGrid.key]. intros Hkey.
  pose proof ids_NoDup as Hnd. rewrite NoDup_nth_error in Hnd.
  symmetry. apply Hnd.
  - rewrite length_map. apply nth_error_Some. congruence.
  - rewrite !nth_error_map, Hi, Hj. simpl. now rewrite Hkey.
Qed.

Lemma home_cards_lead_to_their_pages_witness :
  nth_error securityPatterns 3 = Some pda_seed_collision /\
  exists item d,
    nth_error HomeGrid.grid 3 = Some item /\
    PatternCard.to (HomeGrid.card item) = "/pattern/pda-seed-collision" /\
    PatternPage.PatternPage (Some (id pda_seed_collision)) = PatternPage.Found d /\
    PatternPage.pattern d = pda_seed_collision.
Proof.
  split; [reflexivity|].
  destruct (home_cards_lead_to_their_pages 3 pda_seed_collision eq_refl)
    as (item & d & H1 & _ & _ & H2 & H3 & H4 & _).
  exists item, d. repeat split; assumption.
Defined.

(** ** The header navigation *)



(** ** The copy indicator, over whole sessions *)

Section CodeBlockSessions.
Import CodeBlock.
Variable props : CodeBlockProps.

Lemma filter_none_due (t : N) (l : list N) :
  existsb (fun due => (due <=? t)%N) l = false ->
  filter (fun due => negb (due <=? t)%N) l = l.
Proof.
  induction l as [|x l IH]; simpl; auto.
  intros H. apply orb_false_iff in H as [Hx Hl].
  now rewrite Hx, IH.
Qed.

Lemma filter_all_due (t : N) (l : list N) :
  Forall (fun due => (due <= t)%N) l ->
  filter (fun due => negb (due <=? t)%N) l = [].
Proof.
  induction 1 as [|x l Hx Hl IH]; simpl; auto.
  apply N.leb_le in Hx. now rewrite Hx.
Qed.

Lemma step_invariant (w : World) (e : Event) :
  session_invariant props w -> session_invariant props (step props w e).
Proof.
  intros (Hdue & Hon & Hpend & Hclip). destruct e as [|ok|ms]; cbn [step].
  - repeat split; auto. cbn [handleCopy_call pending].
    apply Forall_app. split; auto.
  - destruct (pending w) as [|text rest] eqn:Hp.
    + repeat split; auto. now rewrite Hp.
    + inversion Hpend as [|? ? Htext Hrest]; subst.
      destruct ok; repeat split; cbn; auto.
      * apply Forall_app. split; [|constructor; [lia | constructor]].
        eapply Forall_impl; [|exact Hdue]. cbn. intros; lia.
      * intros _ Hnil. now apply app_eq_nil in Hnil as [_ Hnil].
  - repeat split; cbn [elapse now copied timers pending clipboard]; auto.
    + apply Forall_forall. intros due Hin. apply filter_In in Hin as [Hin Hlate].
      rewrite Forall_forall in Hdue. specialize (Hdue due Hin).
      apply negb_true_iff, N.leb_gt in Hlate. lia.
    + destruct (existsb (fun due => (due <=? now w + ms)%N) (timers w)) eqn:He;
        [discriminate|].
      rewrite filter_none_due by assumption. exact Hon.
Qed.

Lemma run_invariant (trace : list Event) (w : World) :
  session_invariant props w -> session_invariant props (run props w trace).
Proof.
  revert w. induction trace as [|e trace IH]; intros w Hw; cbn; auto.
  apply IH. now apply step_invariant.
Qed.

Lemma mounted_invariant : session_invariant props mounted.
Proof. repeat split; cbn; auto. discriminate. Qed.

Lemma sink_of_run (trace : list Event) (w : World) :
  sink (run props w trace) = repeat (code props) (clicks trace) ++ sink w.
Proof.
  revert w. induction trace as [|e trace IH]; intros w; [reflexivity|].
  change (run props w (e :: trace)) with (run props (step props w e) trace).
  rewrite IH. destruct e as [|ok|ms]; cbn [clicks step].
  - cbn [handleCopy_call sink].
    change (code props :: sink w) with ([code props] ++ sink w).
    rewrite app_assoc. f_equal.
    change (S (clicks trace)) with (1 + clicks trace).
    now rewrite <- repeat_cons.
  - destruct (pending w); [reflexivity|]. now destruct ok.
  - reflexivity.
Qed.

End CodeBlockSessions.

(** X6: at every moment of a session, whatever was clicked and however the
    writes ended, an indicator that is on has a timer pending, and every
    pending timer is due within the next 2000 ms: the indicator is never
    left on for good. *)
Theorem indicator_never_stuck (props : CodeBlock.CodeBlockProps)
    (trace : list CodeBlock.Event) :
  (CodeBlock.copied (CodeBlock.run props CodeBlock.mounted trace) = true ->
   CodeBlock.timers (CodeBlock.run props CodeBlock.mounted trace) <> []) /\
  Forall (fun due =>
            (CodeBlock.now (CodeBlock.run props CodeBlock.mounted trace) < due
             <= CodeBlock.now (CodeBlock.run props CodeBlock.mounted trace) + 2000)%N)
         (CodeBlock.timers (CodeBlock.run props CodeBlock.mounted trace)).
Proof.
  destruct (run_invariant props trace _ (mounted_invariant props)) as (H1 & H2 & _).
  split; assumption.
Qed.

(** X7: after any session, 2000 ms or more without a click or a settled
    write leave the indicator off and no timer pending. *)
Theorem quiet_after_two_seconds (props : CodeBlock.CodeBlockProps)
    (trace : list CodeBlock.Event) (d : N) :
  (2000 <= d)%N ->
  CodeBlock.copied
    (CodeBlock.run props CodeBlock.mounted (trace ++ [CodeBlock.Elapse d])) = false /\
  CodeBlock.timers
    (CodeBlock.run props CodeBlock.mounted (trace ++ [CodeBlock.Elapse d])) = [].
Proof.
  intros Hd. unfold CodeBlock.run. rewrite fold_left_app. cbn [fold_left CodeBlock.step].
  fold (CodeBlock.run props CodeBlock.mounted trace).
  destruct (run_invariant props trace _ (mounted_invariant props)) as (Hdue & Hon & _).
  set (w := CodeBlock.run props CodeBlock.mounted trace) in *.
  assert (Hnone : filter (fun due => negb (due <=? CodeBlock.now w + d)%N)
                         (CodeBlock.timers w) = []).
  { apply filter_all_due. eapply Forall_impl; [|exact Hdue]. cbn. intros; lia. }
  split; [|exact Hnone].
  destruct (CodeBlock.copied (CodeBlock.elapse d w)) eqn:Hc; auto.
  apply elapse_copied in Hc as [Hc Hall].
  specialize (Hon Hc). destruct (CodeBlock.timers w) as [|due l]; [congruence|].
  inversion Hall; subst. inversion Hdue; subst. lia.
Qed.

(** X8: in a session every click hands the code to the clipboard sink once,
    whatever became of the earlier writes: the sink has received the code as
    many times as the button was clicked and nothing else, and the clipboard,
    once written, holds the code. *)
Theorem every_click_writes_the_code (props : CodeBlock.CodeBlockProps)
    (trace : list CodeBlock.Event) :
  CodeBlock.sink (CodeBlock.run props CodeBlock.mounted trace)
  = repeat (CodeBlock.code props) (clicks trace) /\
  (CodeBlock.clipboard (CodeBlock.run props CodeBlock.mounted trace) = None \/
   CodeBlock.clipboard (CodeBlock.run props CodeBlock.mounted trace)
   = Some (CodeBlock.code props)).
Proof.
  split.
  - rewrite sink_of_run. apply app_nil_r.
  - now destruct (run_invariant props trace _ (mounted_invariant props))
      as (_ & _ & _ & H).
Qed.

(** ** The prose blocks of the detail page *)

Lemma paragraphs_prose (cls : string) (lines : list string) (k : nat) :
  paragraphs (PatternPage.map_indexed (PatternPage.proseLine cls) k lines)
  = filter (fun line => truthy (trim line)) lines.
Proof.
  revert k. induction lines as [|line lines IH]; intros k; [reflexivity|].
  cbn [PatternPage.map_indexed filter]. unfold PatternPage.proseLine at 1.
  destruct (truthy (trim line)); cbn [paragraphs]; now rewrite IH.
Qed.

(** X9: the Overview block and the blocks under the two code samples show
    the lines of their text that are not blank, in order and as they are
    written: nothing is stripped from them, star markers included; each
    paragraph keeps as key the index of its line among all the lines. *)
Theorem prose_blocks_verbatim (p : SecurityPattern) :
  paragraphs (PatternPage.overview p)
  = filter (fun line => truthy (trim line)) (split_lines (explanation p)) /\
  paragraphs (PatternPage.whatsWrong p)
  = filter (fun line => truthy (trim line)) (split_lines (vulnerableExplanation p)) /\
  paragraphs (PatternPage.securityMeasures p)
  = filter (fun line => truthy (trim line)) (split_lines (secureExplanation p)) /\
  (forall cls text i child,
     nth_error (PatternPage.proseBlock cls text) i = Some child ->
     child = PatternPage.Blank \/
     exists line, nth_error (split_lines text) i = Some line /\
                  child = PatternPage.P i cls line).
Proof.
  repeat split; try apply paragraphs_prose.
  intros cls text i child. unfold PatternPage.proseBlock.
  rewrite map_indexed_nth.
  destruct (nth_error (split_lines text) i) as [line|]; [|discriminate].
  intros [= <-]. cbn [Nat.add]. unfold PatternPage.proseLine.
  destruct (truthy (trim line)); [right; now exists line | now left].
Qed.

(** ** The Deep Dive page *)

Lemma startsWith_truthy (t p : string) :
  truthy p = true -> startsWith t p = true -> truthy t = true.
Proof.
  unfold startsWith. destruct p; [discriminate|]. now destruct t.
Qed.

Lemma matches_number_truthy (t : string) :
  matches_number t = true -> truthy t = true.
Proof. now destruct t. Qed.

(** X10: a line of a section's content yields nothing exactly when it is
    blank once trimmed; any other line yields one element, whose key is the
    index of the line; the text of a subheading has no star pair left. *)
Theorem content_line_blank_iff (i : nat) (paragraph : string) :
  (DeepDivePage.contentLine i paragraph = DeepDivePage.Nothing <->
   truthy (trim paragraph) = false) /\
  match DeepDivePage.contentLine i paragraph with
  | DeepDivePage.Nothing => True
  | DeepDivePage.H3 k text => k = i /\ no_star_pair text = true
  | DeepDivePage.Li k _ | DeepDivePage.LiDecimal k _ | DeepDivePage.Para k _ => k = i
  end.
Proof.
  unfold DeepDivePage.contentLine.
  destruct (startsWith (trim paragraph) "**") eqn:Hs; cbn [andb].
  - pose proof (startsWith_truthy _ "**" eq_refl Hs) as Ht.
    destruct (endsWith (trim paragraph) "**").
    + split; [split; [discriminate | congruence]|].
      split; [reflexivity | apply strip_stars_no_pair].
    + destruct (startsWith (trim paragraph) "- ");
        [split; [split; [discriminate | congruence] | reflexivity]|].
      destruct (matches_number (trim paragraph));
        [split; [split; [discriminate | congruence] | reflexivity]|].
      rewrite Ht. split; [split; [discriminate | congruence] | reflexivity].
  - destruct (startsWith (trim paragraph) "- ") eqn:Hb.
    + pose proof (startsWith_truthy _ "- " eq_refl Hb) as Ht.
      split; [split; [discriminate | congruence] | reflexivity].
    + destruct (matches_number (trim paragraph)) eqn:Hn.
      * pose proof (matches_number_truthy _ Hn) as Ht.
        split; [split; [discriminate | congruence] | reflexivity].
      * destruct (truthy (trim paragraph));
          [split; [split; [discriminate | congruence] | reflexivity]|].
        split; [split; reflexivity | exact I].
Qed.

Lemma section_ids_NoDup : NoDup (map DeepDivePage.Topic.id DeepDivePage.sections).
Proof. apply distinct_NoDup. reflexivity. Qed.

(** X11: the entry at position [i] of the table of contents points at the
    section rendered at position [i]: its anchor is that section's id, its
    number and title are the ones the section is headed with, and no other
    section carries that anchor. *)
Theorem toc_entries_reach_their_sections (i : nat) (e : DeepDivePage.TocEntry) :
  nth_error (DeepDivePage.toc DeepDivePage.DeepDivePage) i = Some e ->
  exists v,
    nth_error (DeepDivePage.body DeepDivePage.DeepDivePage) i = Some v /\
    DeepDivePage.href e = ("#" ++ DeepDivePage.anchor v)%string /\
    DeepDivePage.number e = i + 1 /\
    DeepDivePage.ordinal v = i + 1 /\
    DeepDivePage.caption e = DeepDivePage.headline v /\
    (forall j v', nth_error (DeepDivePage.body DeepDivePage.DeepDivePage) j = Some v' ->
                  DeepDivePage.anchor v' = DeepDivePage.anchor v -> j = i).
Proof.
  cbn [DeepDivePage.DeepDivePage DeepDivePage.toc DeepDivePage.body].
  unfold DeepDivePage.toc_of, DeepDivePage.sections_of.
  rewrite !map_indexed_nth.
  destruct (nth_error DeepDivePage.sections i) as [t|] eqn:Hi; [|discriminate].
  intros [= <-]. eexists. split; [reflexivity|]. cbn [Nat.add].
  repeat split.
  intros j v'. rewrite map_indexed_nth.
  destruct (nth_error DeepDivePage.sections j) as [t'|] eqn:Hj; [|discriminate].
  intros [= <-]. cbn [DeepDivePage.anchor]. intros Heq.
  pose proof section_ids_NoDup as Hnd. rewrite NoDup_nth_error in Hnd.
  symmetry. apply Hnd.
  - rewrite length_map. apply nth_error_Some. congruence.
  - rewrite !nth_error_map, Hi, Hj. simpl. now rewrite Heq.
Qed.

Lemma toc_entries_reach_their_sections_witness :
  nth_error (DeepDivePage.toc DeepDivePage.DeepDivePage) 3
  = Some {| DeepDivePage.href := "#anchor-security"; DeepDivePage.number := 4;
            DeepDivePage.caption := "Anchor Security Features" |} /\
  exists v,
    nth_error (DeepDivePage.body DeepDivePage.DeepDivePage) 3 = Some v /\
    DeepDivePage.anchor v = "anchor-security" /\
    DeepDivePage.ordinal v = 4.
Proof.
  split; [reflexivity|].
  destruct (toc_entries_reach_their_sections 3 _ eq_refl)
    as (v & Hv & Hhref & _ & Hord & _).
  exists v. repeat split; try assumption.
  cbn [DeepDivePage.href] in Hhref. now injection Hhref as <-.
Defined.

Lemma slice_from_start {A : Type} (l : list A) (n : nat) :
  JsArray.slice l 0 (Z.of_nat n) = firstn n l.
Proof.
  unfold JsArray.slice.
  change (0 <? 0)%Z with false. cbn iota.
  destruct (Z.ltb_spec (Z.of_nat n) 0) as [|_]; [lia|].
  rewrite (Z.min_l 0) by lia. cbn [Z.to_nat skipn]. rewrite Z.sub_0_r.
  destruct (Z.min_spec (Z.of_nat n) (Z.of_nat (length l))) as [[Hlt ->] | [Hle ->]].
  - now rewrite Nat2Z.id.
  - rewrite Nat2Z.id, firstn_all. symmetry. apply firstn_all2. lia.
Qed.

(** X12: the closing block of the Deep Dive page links to the first three
    records of the dataset, in dataset order, and each link leads to the
    detail page of its record. *)
Theorem deep_dive_links_resolve (i : nat) (l : DeepDivePage.PatternLink) :
  nth_error (DeepDivePage.patternLinks DeepDivePage.DeepDivePage) i = Some l ->
  i < 3 /\
  exists p d,
    nth_error securityPatterns i = Some p /\
    DeepDivePage.key l = id p /\
    DeepDivePage.to l = ("/pattern/" ++ id p)%string /\
    DeepDivePage.shown l = title p /\
    PatternPage.PatternPage (Some (id p)) = PatternPage.Found d /\
    PatternPage.pattern d = p.
Proof.
  cbn [DeepDivePage.DeepDivePage DeepDivePage.patternLinks].
  unfold DeepDivePage.patternLinks_of.
  change (JsArray.slice securityPatterns 0 3)
    with (JsArray.slice securityPatterns 0 (Z.of_nat 3)).
  rewrite (slice_from_start securityPatterns 3), nth_error_map.
  destruct (nth_error (firstn 3 securityPatterns) i) as [p|] eqn:Hp; [|discriminate].
  intros [= <-].
  assert (Hi : i < 3).
  { assert (i < length (firstn 3 securityPatterns)) by (apply nth_error_Some; congruence).
    rewrite length_firstn in *. lia. }
  split; [exact Hi|].
  rewrite nth_error_firstn in Hp.
  destruct (Nat.ltb_spec i 3) as [_|]; [|lia].
  exists p. eexists. split; [exact Hp|].
  split; [reflexivity|]. split; [reflexivity|]. split; [reflexivity|].
  split; [apply (page_of_record i p Hp) | reflexivity].
Qed.

Lemma deep_dive_links_resolve_witness :
  nth_error (DeepDivePage.patternLinks DeepDivePage.DeepDivePage) 2
  = Some {| DeepDivePage.key := "integer-overflow";
            DeepDivePage.to := "/pattern/integer-overflow";
            DeepDivePage.tag := "Arithmetic Safety";
            DeepDivePage.shown := "Integer Overflow/Underflow" |} /\
  2 < 3 /\
  exists d,
    PatternPage.PatternPage (Some "integer-overflow") = PatternPage.Found d /\
    PatternPage.pattern d = integer_overflow.
Proof.
  split; [reflexivity|].
  destruct (deep_dive_links_resolve 2 _ eq_refl)
    as (Hlt & p & d & Hp & _ & _ & _ & Hpage & Hpat).
  split; [exact Hlt|].
  injection Hp as <-. exists d. split; assumption.
Defined.

(** ** The markup of the Deep Dive sections *)

Ltac split_match H :=
  repeat match type of H with
         | context [match ?v with _ => _ end] => destruct v; try discriminate H
         end.

Lemma ws1_code (a : ascii) : ws1 a = true -> strippable a.
Proof.
  unfold ws1, strippable. intros H. remember (N_of_ascii a) as x. clear Heqx.
  split_match H; lia.
Qed.

Lemma ws2_codes (a b : ascii) : ws2 a b = true -> strippable a /\ strippable b.
Proof.
  unfold ws2, strippable. intros H.
  remember (N_of_ascii a) as x. remember (N_of_ascii b) as y. clear Heqx Heqy.
  split_match H; lia.
Qed.

Lemma ws3_codes (a b c : ascii) :
  ws3 a b c = true -> strippable a /\ strippable b /\ strippable c.
Proof.
  unfold ws3, strippable. intros H.
  remember (N_of_ascii a) as x. remember (N_of_ascii b) as y.
  remember (N_of_ascii c) as z. clear Heqx Heqy Heqz.
  split_match H; try lia.
  all: repeat split; try lia.
  all: repeat rewrite orb_true_iff in H; rewrite andb_true_iff in H;
       rewrite ?N.leb_le, ?N.eqb_eq in H; lia.
Qed.

(** [drop_ws] removes a prefix made of strippable bytes, itself blank. *)
Lemma drop_ws_split (l : list ascii) :
  exists pre, l = pre ++ drop_ws l /\ drop_ws pre = [] /\ Forall strippable pre.
Proof.
  assert (H : forall n l, length l <= n ->
                exists pre, l = pre ++ drop_ws l /\ drop_ws pre = [] /\
                            Forall strippable pre).
  { clear l. induction n as [|n IH]; intros l Hlen.
    - destruct l; [|simpl in Hlen; lia]. exists []. repeat split; constructor.
    - destruct l as [|a l1]; [exists []; repeat split; constructor|].
      simpl in Hlen. cbn [drop_ws]. destruct (ws1 a) eqn:H1.
      { destruct (IH l1) as (pre & Hl & Hpre & Hall); [lia|].
        exists (a :: pre). cbn [app drop_ws]. rewrite H1, <- Hl.
        repeat split; auto. constructor; auto. now apply ws1_code. }
      destruct l1 as [|b l2]; [exists []; repeat split; constructor|].
      simpl in Hlen. destruct (ws2 a b) eqn:H2.
      { destruct (IH l2) as (pre & Hl & Hpre & Hall); [lia|].
        destruct (ws2_codes a b H2) as [Ha Hb].
        exists (a :: b :: pre). cbn [app drop_ws]. rewrite H1, H2, <- Hl.
        repeat split; auto. }
      destruct l2 as [|c l3]; [exists []; repeat split; constructor|].
      simpl in Hlen. destruct (ws3 a b c) eqn:H3.
      { destruct (IH l3) as (pre & Hl & Hpre & Hall); [lia|].
        destruct (ws3_codes a b c H3) as (Ha & Hb & Hc).
        exists (a :: b :: c :: pre). cbn [app drop_ws]. rewrite H1, H2, H3, <- Hl.
        repeat split; auto. }
      exists []. repeat split; constructor. }
  now apply (H (length l)).
Qed.

(** The same at the other end, on the reversed text. *)
Lemma drop_ws_rev_split (m : list ascii) :
  exists suf, m = suf ++ drop_ws_rev m /\ Forall strippable suf.
Proof.
  assert (H : forall n m, length m <= n ->
                exists suf, m = suf ++ drop_ws_rev m /\ Forall strippable suf).
  { clear m. induction n as [|n IH]; intros m Hlen.
    - destruct m; [|simpl in Hlen; lia]. exists []. repeat split; constructor.
    - destruct m as [|c m1]; [exists []; repeat split; constructor|].
      simpl in Hlen. cbn [drop_ws_rev]. destruct (ws1 c) eqn:H1.
      { destruct (IH m1) as (suf & Hm & Hall); [lia|].
        exists (c :: suf). cbn [app]. rewrite <- Hm.
        repeat split; auto. constructor; auto. now apply ws1_code. }
      destruct m1 as [|b m2]; [exists []; repeat split; constructor|].
      simpl in Hlen. destruct (ws2 b c) eqn:H2.
      { destruct (IH m2) as (suf & Hm & Hall); [lia|].
        destruct (ws2_codes b c H2) as [Hb Hc].
        exists (c :: b :: suf). cbn [app]. rewrite <- Hm. repeat split; auto. }
      destruct m2 as [|a m3]; [exists []; repeat split; constructor|].
      simpl in Hlen. destruct (ws3 a b c) eqn:H3.
      { destruct (IH m3) as (suf & Hm & Hall); [lia|].
        destruct (ws3_codes a b c H3) as (Ha & Hb & Hc).
        exists (c :: b :: a :: suf). cbn [app]. rewrite <- Hm. repeat split; auto. }
      exists []. repeat split; constructor. }
  now apply (H (length m)).
Qed.

(** A text is its trimmed text between two runs of strippable bytes, the
    first one blank. *)
Lemma trim_split (s : string) :
  exists pre post,
    list_ascii_of_string s = pre ++ list_ascii_of_string (trim s) ++ post /\
    drop_ws pre = [] /\ Forall strippable pre /\ Forall strippable post.
Proof.
  destruct (drop_ws_split (list_ascii_of_string s)) as (pre & Hl & Hpre & Hall).
  destruct (drop_ws_rev_split (rev (drop_ws (list_ascii_of_string s))))
    as (suf & Hm & Hsuf).
  exists pre, (rev suf). unfold trim. rewrite list_ascii_of_string_of_list_ascii.
  repeat split; auto; [|now apply Forall_rev].
  rewrite <- rev_app_distr, <- Hm, rev_involutive. exact Hl.
Qed.

Lemma string_of_app (l1 l2 : list ascii) :
  string_of_list_ascii (l1 ++ l2)
  = (string_of_list_ascii l1 ++ string_of_list_ascii l2)%string.
Proof. induction l1 as [|a l1 IH]; simpl; [reflexivity | now rewrite IH]. Qed.

Lemma trim_blank (pre : list ascii) :
  drop_ws pre = [] -> trim (string_of_list_ascii pre) = EmptyString.
Proof.
  intros H. unfold trim. now rewrite list_ascii_of_string_of_list_ascii, H.
Qed.

Lemma startsWith_two (a b : ascii) (t : string) :
  startsWith t (String a (String b EmptyString)) = true ->
  exists rest, t = String a (String b rest).
Proof.
  unfold startsWith. destruct t as [|x [|y rest]]; cbn [prefix]; try discriminate.
  - destruct (ascii_dec a x); discriminate.
  - destruct (ascii_dec a x) as [<-|]; [|discriminate].
    destruct (ascii_dec b y) as [<-|]; [|discriminate].
    now exists rest.
Qed.

Lemma remove_first_after (pre : list ascii) (s : string) :
  Forall strippable pre ->
  remove_first "- " (string_of_list_ascii pre ++ s)
  = (string_of_list_ascii pre ++ remove_first "- " s)%string.
Proof.
  induction 1 as [|c pre Hc Hpre IH]; [reflexivity|].
  cbn [string_of_list_ascii append remove_first prefix].
  destruct (ascii_dec "-" c) as [<-|_].
  - exfalso. unfold strippable in Hc. cbn in Hc. lia.
  - now rewrite IH.
Qed.

Lemma remove_first_head (rest : string) :
  remove_first "- " ("- " ++ rest) = rest.
Proof. destruct rest; reflexivity. Qed.

(** X13: a line whose trimmed text begins with a dash and a space becomes an
    unordered item; the text shown is the line without that dash and space,
    and what stands before the dash, which is blank, stays in the text. *)
Theorem bullet_keeps_indentation (i : nat) (paragraph : string) :
  startsWith (trim paragraph) "- " = true ->
  exists pre rest,
    paragraph = (pre ++ "- " ++ rest)%string /\
    trim pre = EmptyString /\
    DeepDivePage.contentLine i paragraph = DeepDivePage.Li i (pre ++ rest)%string.
Proof.
  intros Hb.
  destruct (trim_split paragraph) as (pre & post & Hl & Hpre & Hall & _).
  destruct (startsWith_two _ _ _ Hb) as [t Ht].
  exists (string_of_list_ascii pre),
         (string_of_list_ascii (list_ascii_of_string t ++ post)).
  assert (Hp : paragraph
               = (string_of_list_ascii pre ++ "- "
                  ++ string_of_list_ascii (list_ascii_of_string t ++ post))%string).
  { rewrite <- (string_of_list_ascii_of_string paragraph), Hl, Ht.
    now rewrite string_of_app. }
  split; [exact Hp|]. split; [now apply trim_blank|].
  unfold DeepDivePage.contentLine. rewrite Hb.
  replace (startsWith (trim paragraph) "**") with false by (rewrite Ht; reflexivity).
  cbn [andb]. f_equal. rewrite Hp at 1.
  rewrite remove_first_after by exact Hall. now rewrite remove_first_head.
Qed.

Lemma bullet_keeps_indentation_witness :
  startsWith (trim "   - Pass zero values") "- " = true /\
  exists pre rest,
    "   - Pass zero values" = (pre ++ "- " ++ rest)%string /\
    trim pre = EmptyString /\
    DeepDivePage.contentLine 7 "   - Pass zero values"
    = DeepDivePage.Li 7 (pre ++ rest)%string.
Proof.
  split; [reflexivity|].
  exact (bullet_keeps_indentation 7 "   - Pass zero values" eq_refl).
Defined.

Lemma is_digit_code (c : ascii) :
  is_digit c = true -> (48 <= N_of_ascii c <= 57)%N.
Proof.
  unfold is_digit. intros H. apply andb_prop in H as [H1 H2].
  apply N.leb_le in H1. apply N.leb_le in H2. lia.
Qed.

Lemma digit_not_strippable (c : ascii) : is_digit c = true -> ~ strippable c.
Proof. intros H [Hs|Hs]; apply is_digit_code in H; lia. Qed.

(** A text that begins with a numeral begins neither with the star marker
    nor with a dash. *)
Lemma number_excludes_markers (t : string) :
  matches_number t = true ->
  startsWith t "**" = false /\ startsWith t "- " = false.
Proof.
  destruct t as [|d t']; [discriminate|].
  unfold matches_number, after_number.
  destruct (is_digit d) eqn:Hd; [|discriminate]. intros _.
  unfold startsWith. cbn [prefix]. split.
  - destruct (ascii_dec "*" d) as [<-|]; [discriminate Hd | reflexivity].
  - destruct (ascii_dec "-" d) as [<-|]; [discriminate Hd | reflexivity].
Qed.

Lemma numbered_line (i : nat) (paragraph : string) :
  matches_number (trim paragraph) = true ->
  DeepDivePage.contentLine i paragraph
  = DeepDivePage.LiDecimal i (remove_number paragraph).
Proof.
  intros Hn. destruct (number_excludes_markers _ Hn) as [Hs Hb].
  unfold DeepDivePage.contentLine. now rewrite Hs, Hb, Hn.
Qed.

(** X14: a numbered line that is indented becomes an ordered item whose
    text is the whole line, numeral and indentation included: the numeral is
    looked for in the trimmed text and removed from the untrimmed one. *)
Theorem indented_number_keeps_numeral (i : nat) (paragraph : string) :
  matches_number (trim paragraph) = true ->
  matches_number paragraph = false ->
  DeepDivePage.contentLine i paragraph = DeepDivePage.LiDecimal i paragraph.
Proof.
  intros Hn Hp. rewrite (numbered_line i paragraph Hn). f_equal.
  unfold matches_number in Hp. unfold remove_number.
  now destruct (after_number paragraph).
Qed.

Lemma indented_number_keeps_numeral_witness :
  matches_number (trim "  2.  Authorization") = true /\
  matches_number "  2.  Authorization" = false /\
  DeepDivePage.contentLine 0 "  2.  Authorization"
  = DeepDivePage.LiDecimal 0 "  2.  Authorization".
Proof.
  split; [reflexivity|]. split; [reflexivity|].
  exact (indented_number_keeps_numeral 0 "  2.  Authorization" eq_refl eq_refl).
Defined.

Lemma list_of_app (s1 s2 : string) :
  list_ascii_of_string (s1 ++ s2)
  = list_ascii_of_string s1 ++ list_ascii_of_string s2.
Proof. induction s1 as [|c s1 IH]; simpl; [reflexivity | now rewrite IH]. Qed.

Lemma skip_digits_stop (digits tail : string) :
  forallb is_digit (list_ascii_of_string digits) = true ->
  skip_digits (digits ++ String "." tail) = String "." tail.
Proof.
  induction digits as [|c ds IH]; [reflexivity|].
  cbn [list_ascii_of_string forallb append skip_digits].
  intros H. apply andb_prop in H as [Hc Hds]. rewrite Hc. now apply IH.
Qed.

Lemma after_number_found (digits tail : string) :
  truthy digits = true ->
  forallb is_digit (list_ascii_of_string digits) = true ->
  after_number (digits ++ String "." tail) = Some tail.
Proof.
  destruct digits as [|c ds]; [discriminate|]. intros _.
  cbn [list_ascii_of_string forallb append after_number].
  intros H. apply andb_prop in H as [Hc Hds].
  now rewrite Hc, (skip_digits_stop ds tail Hds).
Qed.

(** What [trim] leaves of a text that begins with a numeral and a dot still
    begins with them. *)
Lemma kept_prefix (ds t post tail : list ascii) :
  Forall (fun c => is_digit c = true) ds -> Forall strippable post ->
  t ++ post = ds ++ "."%char :: tail ->
  exists t', t = ds ++ "."%char :: t'.
Proof.
  intros Hds Hpost. revert t. induction Hds as [|d ds Hd Hds IH]; intros t Heq.
  - destruct t as [|x t]; cbn [app] in Heq.
    + subst post. inversion Hpost as [|? ? Hdot _]; subst.
      unfold strippable in Hdot. cbn in Hdot. lia.
    + injection Heq as -> _. now exists t.
  - destruct t as [|x t]; cbn [app] in Heq.
    + subst post. inversion Hpost as [|? ? Hs _]; subst.
      now apply digit_not_strippable in Hs.
    + injection Heq as -> Heq. destruct (IH t Heq) as [t' ->]. now exists t'.
Qed.

(** X15: a line that begins with a numeral and a dot becomes an ordered
    item; the text shown is what follows the dot, without the white space it
    begins with. *)
Theorem numbered_line_loses_numeral (i : nat) (digits tail : string) :
  truthy digits = true ->
  forallb is_digit (list_ascii_of_string digits) = true ->
  DeepDivePage.contentLine i (digits ++ "." ++ tail)
  = DeepDivePage.LiDecimal i
      (string_of_list_ascii (drop_ws (list_ascii_of_string tail))).
Proof.
  intros Hne Hds.
  change ("." ++ tail)%string with (String "." tail).
  set (paragraph := (digits ++ String "." tail)%string).
  assert (Hhere : after_number paragraph = Some tail)
    by now apply after_number_found.
  assert (Hn : matches_number (trim paragraph) = true).
  { destruct (trim_split paragraph) as (pre & post & Hl & _ & Hpre & Hpost).
    unfold paragraph in *. rewrite list_of_app in Hl.
    cbn [list_ascii_of_string] in Hl.
    assert (Hall : Forall (fun c => is_digit c = true) (list_ascii_of_string digits))
      by (apply Forall_forall; now apply forallb_forall).
    assert (pre = []) as ->.
    { destruct pre as [|x pre]; [reflexivity|]. exfalso.
      inversion Hpre as [|? ? Hx _]; subst.
      destruct digits as [|c ds]; [discriminate|].
      cbn [list_ascii_of_string app] in Hl. injection Hl as <- _.
      inversion Hall; subst. now apply (digit_not_strippable c). }
    cbn [app] in Hl. symmetry in Hl.
    destruct (kept_prefix _ _ _ _ Hall Hpost Hl) as [t' Ht].
    rewrite <- (string_of_list_ascii_of_string (trim (digits ++ String "." tail))), Ht.
    rewrite string_of_app. cbn [string_of_list_ascii].
    rewrite string_of_list_ascii_of_string.
    unfold matches_number. now rewrite after_number_found. }
  rewrite (numbered_line i paragraph Hn). unfold remove_number. now rewrite Hhere.
Qed.

Lemma numbered_line_loses_numeral_witness :
  truthy "12" = true /\
  forallb is_digit (list_ascii_of_string "12") = true /\
  DeepDivePage.contentLine 3 "12.  Use checked arithmetic"
  = DeepDivePage.LiDecimal 3 "Use checked arithmetic".
Proof.
  split; [reflexivity|]. split; [reflexivity|].
  exact (numbered_line_loses_numeral 3 "12" "  Use checked arithmetic" eq_refl eq_refl).
Defined.

(** X16: a line that begins with the star marker becomes a subheading only
    if it also ends with it, and then loses its star pairs; otherwise it is
    a paragraph that shows the line as written, stars included. *)
Theorem subheading_needs_both_ends (i : nat) (paragraph : string) :
  startsWith (trim paragraph) "**" = true ->
  (endsWith (trim paragraph) "**" = true ->
   DeepDivePage.contentLine i paragraph = DeepDivePage.H3 i (strip_stars paragraph)) /\
  (endsWith (trim paragraph) "**" = false ->
   DeepDivePage.contentLine i paragraph = DeepDivePage.Para i paragraph).
Proof.
  intros Hs. unfold DeepDivePage.contentLine. rewrite Hs. cbn [andb].
  split; intros He; rewrite He; [reflexivity|].
  destruct (startsWith_two _ _ _ Hs) as [t Ht]. now rewrite Ht.
Qed.

Lemma subheading_needs_both_ends_witness :
  startsWith (trim "**Note:** seeds must be unique") "**" = true /\
  endsWith (trim "**Note:** seeds must be unique") "**" = false /\
  DeepDivePage.contentLine 2 "**Note:** seeds must be unique"
  = DeepDivePage.Para 2 "**Note:** seeds must be unique".
Proof.
  split; [reflexivity|]. split; [reflexivity|].
  exact (proj2 (subheading_needs_both_ends 2 "**Note:** seeds must be unique" eq_refl)
           eq_refl).
Defined.

(** ** Instances *)

Lemma quiet_after_two_seconds_witness :
  (2000 <= 2000)%N /\
  CodeBlock.copied
    (CodeBlock.run (CodeBlock.withDefaults "let x = 1;") CodeBlock.mounted
       ([CodeBlock.Click; CodeBlock.Settle true; CodeBlock.Elapse 1500;
         CodeBlock.Click; CodeBlock.Settle true] ++ [CodeBlock.Elapse 2000]))
  = false.
Proof.
  split; [lia|].
  apply (quiet_after_two_seconds (CodeBlock.withDefaults "let x = 1;")
           [CodeBlock.Click; CodeBlock.Settle true; CodeBlock.Elapse 1500;
            CodeBlock.Click; CodeBlock.Settle true] 2000).
  lia.
Defined.

Lemma indicator_never_stuck_witness :
  CodeBlock.copied
    (CodeBlock.run (CodeBlock.withDefaults "let x = 1;") CodeBlock.mounted
       [CodeBlock.Click; CodeBlock.Settle true; CodeBlock.Elapse 500]) = true /\
  CodeBlock.timers
    (CodeBlock.run (CodeBlock.withDefaults "let x = 1;") CodeBlock.mounted
       [CodeBlock.Click; CodeBlock.Settle true; CodeBlock.Elapse 500]) <> [].
Proof.
  split; [reflexivity|].
  exact (proj1 (indicator_never_stuck (CodeBlock.withDefaults "let x = 1;")
                  [CodeBlock.Click; CodeBlock.Settle true; CodeBlock.Elapse 500])
           eq_refl).
Defined.

Lemma prose_blocks_verbatim_witness :
  nth_error (PatternPage.proseBlock EmptyString (vulnerableExplanation unsafe_cpi)) 1
  = Some (PatternPage.P 1 EmptyString "**What's Wrong:**") /\
  (PatternPage.P 1 EmptyString "**What's Wrong:**" = PatternPage.Blank \/
   exists line,
     nth_error (split_lines (vulnerableExplanation unsafe_cpi)) 1 = Some line /\
     PatternPage.P 1 EmptyString "**What's Wrong:**" = PatternPage.P 1 EmptyString line).
Proof.
  split; [reflexivity|].
  exact (proj2 (proj2 (proj2 (prose_blocks_verbatim unsafe_cpi)))
           EmptyString (vulnerableExplanation unsafe_cpi) 1 _ eq_refl).
Defined.

(** ** The attack scenario block of the authored pages *)


